(** * Budget Distribution & Forecast Engine

    A shallow embedding of [calculate_approved_budget] and
    [calculate_forecast_budget] (src/project_visualization_app.py) and the
    properties of the month-by-month allocation they compute.

    Modelling conventions.
    - A pandas [Timestamp] is a record of its calendar fields and the time of
      day in nanoseconds; comparison is chronological (lexicographic on the
      fields).  The representable range of [Timestamp] (years 1677-2262) and
      time zones are not modelled.
    - A monthly [Period] is the pair (year, month).
    - Amounts and shares are exact rationals ([Qc]); binary floating-point
      rounding, infinities and the summation order of pandas are not modelled.
    - A table cell is taken after pandas' coercion: [None] is NaT / NaN / a
      null, whatever the raw cell was ([pd.to_datetime] and [pd.to_numeric]
      with [errors="coerce"]). *)

From Stdlib Require Import ZArith QArith Qcanon List Lia.
From Stdlib Require Import Strings.String Strings.Ascii.
From Stdlib Require OrderedTypeEx DecimalString DecimalZ.
From stdpp Require Import base decidable option list numbers strings gmap fin_maps sorting.

Local Open Scope string_scope.
Local Open Scope list_scope.
Local Open Scope Z_scope.

(** ** Timestamps and monthly periods *)

Module Calendar.

Record Timestamp : Type := mkTimestamp {
  year : Z;
  month : Z;
  day : Z;
  nanos : Z   (* time of day, nanoseconds since midnight *)
}.

#[global] Instance Timestamp_eq_dec : EqDecision Timestamp.
Proof. solve_decision. Defined.

Abbreviation Period := (Z * Z)%type.

Definition NANOS_PER_DAY : Z := 86400 * 1000000000.

Definition is_leap_year (y : Z) : bool :=
  ((y mod 4 =? 0) && negb (y mod 100 =? 0)) || (y mod 400 =? 0).

Definition days_in_month (y m : Z) : Z :=
  if m =? 2 then (if is_leap_year y then 29 else 28)
  else if (m =? 4) || (m =? 6) || (m =? 9) || (m =? 11) then 30
  else 31.

(** Well-formed calendar fields: what every [Timestamp] object satisfies. *)
Definition wf_timestamp (t : Timestamp) : Prop :=
  1 <= month t <= 12 /\
  1 <= day t <= days_in_month (year t) (month t) /\
  0 <= nanos t < NANOS_PER_DAY.

(** [a <= b] on timestamps. *)
Definition ts_leb (a b : Timestamp) : bool :=
  if year a <? year b then true
  else if year b <? year a then false
  else if month a <? month b then true
  else if month b <? month a then false
  else if day a <? day b then true
  else if day b <? day a then false
  else nanos a <=? nanos b.

(** [t.replace(day=1)]: only the day changes, the time of day is kept. *)
Definition replace_day1 (t : Timestamp) : Timestamp :=
  {| year := year t; month := month t; day := 1; nanos := nanos t |}.

(** [t.to_period("M")]. *)
Definition to_period (t : Timestamp) : Period := (year t, month t).

(** [p.start_time]: the first instant of the month. *)
Definition start_time (p : Period) : Timestamp :=
  {| year := fst p; month := snd p; day := 1; nanos := 0 |}.

(** [p.end_time]: the last nanosecond of the month. *)
Definition end_time (p : Period) : Timestamp :=
  {| year := fst p; month := snd p;
     day := days_in_month (fst p) (snd p);
     nanos := NANOS_PER_DAY - 1 |}.

(** The body of the month loop after the append:
    [if current_date.month == 12: replace(year+1, month=1)
     else: replace(month=month+1)]. *)
Definition next_month (current_date : Timestamp) : Timestamp :=
  if month current_date =? 12
  then {| year := year current_date + 1; month := 1;
          day := day current_date; nanos := nanos current_date |}
  else {| year := year current_date; month := month current_date + 1;
          day := day current_date; nanos := nanos current_date |}.

(** [while current_date <= end_month: months.append(...); current_date = next].
    [fuel] bounds the number of iterations; [None] is "still running". *)
Fixpoint month_loop (fuel : nat) (current_date end_month : Timestamp)
    (months : list Period) : option (list Period) :=
  if ts_leb current_date end_month then
    match fuel with
    | O => None
    | S fuel' =>
        month_loop fuel' (next_month current_date) end_month
                   (months ++ [to_period current_date])
    end
  else Some months.

(** Index of a month on the month scale. *)
Definition month_index (p : Period) : Z := 12 * fst p + snd p.

(** Iterations that always suffice for well-formed timestamps. *)
Definition month_fuel (min_start max_end : Timestamp) : nat :=
  Z.to_nat (month_index (to_period max_end) - month_index (to_period min_start) + 1).

(** The Period Generator: [current_date = min_start.replace(day=1)],
    [end_month = max_end.replace(day=1)], then the loop.  The loop exits
    within [month_fuel] iterations on well-formed timestamps
    ([month_loop_terminates] below); the fallback branch is never taken
    then. *)
Definition generate_months (min_start max_end : Timestamp) : list Period :=
  match month_loop (month_fuel min_start max_end)
                   (replace_day1 min_start) (replace_day1 max_end) [] with
  | Some months => months
  | None => []
  end.

(** *** Reference notions for the period sequence *)

(** The month whose index is [i]: the inverse of [month_index] on calendar
    months. *)
Definition period_of_index (i : Z) : Period := ((i - 1) / 12, (i - 1) mod 12 + 1).

(** The calendar months from [first] through [last], inclusive. *)
Definition months_between (first last : Period) : list Period :=
  period_of_index <$> seqZ (month_index first) (month_index last - month_index first + 1).

Definition wf_month (t : Timestamp) : Prop := 1 <= month t <= 12.

(** Number of iterations the month loop makes: the month of [end_] is
    reached only when the time of day of [cur] is not after that of
    [end_]. *)
Definition loop_count (cur end_ : Timestamp) : Z :=
  month_index (to_period end_) - month_index (to_period cur)
  + (if nanos cur <=? nanos end_ then 1 else 0).

End Calendar.
Export Calendar.

(** ** Data model *)

(** One row of the input table after coercion of the three required
    columns.  A field of a column that the table does not have is never
    read. *)
Record Task : Type := mkTask {
  project_name : option string;
  section : option string;
  task_name : option string;
  plan_start : option Timestamp;
  plan_end : option Timestamp;
  budget_plan : option Qc
}.

#[global] Instance Task_eq_dec : EqDecision Task.
Proof. solve_decision. Defined.

(** The input [DataFrame]: its column labels and its rows. *)
Record DataFrame : Type := mkDataFrame {
  columns : list string;
  records : list Task
}.

(** A value of an output row. *)
Inductive Cell : Type :=
  | CPeriod (p : Period)
  | CNum (x : Qc)
  | CStr (s : string)
  | CNaN.

#[global] Instance Cell_eq_dec : EqDecision Cell.
Proof. solve_decision. Defined.

(** An output row is the Python dict the engine builds: labels in insertion
    order, every label written once. *)
Abbreviation OutRow := (list (string * Cell)).

(** [row.get(label)]. *)
Fixpoint row_get (label : string) (row : OutRow) : option Cell :=
  match row with
  | [] => None
  | (l, v) :: row' => if String.eqb l label then Some v else row_get label row'
  end.

(** The labels of an output table: [DataFrame(rows).columns]. *)
Definition out_columns (rows : list OutRow) : list string :=
  remove_dups (concat (map (map fst) rows)).

(** The engine's result: the table and the optional error message. *)
Abbreviation Result := (list OutRow * option string)%type.

(** ** Rule registry *)

Record Rule : Type := mkRule {
  first_month_percent : Qc;
  middle_months_percent : Qc;
  last_month_percent : Qc;
  description : string
}.

(** Decimal literal [n / 100]. *)
Definition percent (n : Z) : Qc := Q2Qc (n # 100).

(** An integer as an amount. *)
Definition amount (n : Z) : Qc := Q2Qc (inject_Z n).

Definition default_rule : Rule :=
  {| first_month_percent := percent 50;
     middle_months_percent := percent 45;
     last_month_percent := percent 5;
     description := "50% first month, 45% evenly over the middle months, 5% last month" |}.

Definition budget_rules : gmap string Rule := {[ "default" := default_rule ]}.

(** [if rule_name not in budget_rules: rule_name = "default"]. *)
Definition resolve_rule_name (rule_name : string) : string :=
  match budget_rules !! rule_name with
  | Some _ => rule_name
  | None => "default"
  end.

(** [budget_rules[rule_name]] for a resolved name. *)
Definition lookup_rule (rule_name : string) : Rule :=
  default default_rule (budget_rules !! rule_name).

(** ** Schema check and validity filter *)

Definition required_cols : list string := ["budget plan"; "plan start"; "plan end"].

Definition has_column (df : DataFrame) (col : string) : bool :=
  bool_decide (col ∈ columns df).

(** [[col for col in required_cols if col not in df.columns]]. *)
Definition missing_cols (df : DataFrame) : list string :=
  List.filter (fun col => negb (has_column df col)) required_cols.

(** [', '.join(cols)]. *)
Fixpoint join_comma (cols : list string) : string :=
  match cols with
  | [] => ""
  | [c] => c
  | c :: cols' => c +:+ ", " +:+ join_comma cols'
  end.

Definition MSG_MISSING_PREFIX : string := "Отсутствуют необходимые колонки: ".
Definition MSG_NO_VALID_DATA : string := "Нет данных с валидными датами и бюджетом".
Definition MSG_NO_ROWS : string := "Нет данных для расчета утвержденного бюджета".

(** A comparison with NaT / NaN is false. *)
Definition opt_ts_leb (a b : option Timestamp) : bool :=
  match a, b with
  | Some x, Some y => ts_leb x y
  | _, _ => false
  end.

Definition Qc_pos (x : Qc) : bool := bool_decide (0 < x)%Qc.

(** [valid_mask]: both dates and the budget are not null, the budget is
    positive and the start is not after the end. *)
Definition valid_mask (r : Task) : bool :=
  bool_decide (is_Some (plan_start r))
  && bool_decide (is_Some (plan_end r))
  && bool_decide (is_Some (budget_plan r))
  && from_option Qc_pos false (budget_plan r)
  && opt_ts_leb (plan_start r) (plan_end r).

(** ** Grouping *)

(** The value of a grouping column in a row.  ["_group"] is the constant
    column the engine writes itself when no grouping column exists. *)
Definition get_cell (r : Task) (col : string) : option string :=
  if String.eqb col "project name" then project_name r
  else if String.eqb col "section" then section r
  else if String.eqb col "task name" then task_name r
  else if String.eqb col "_group" then Some "all"
  else None.

(** The grouping columns present in the table, ["_group"] when none is. *)
Definition grouping_cols (df : DataFrame) : list string :=
  let cols :=
    (if has_column df "project name" then ["project name"] else [])
    ++ (if has_column df "section" then ["section"] else [])
    ++ (if has_column df "task name" then ["task name"] else []) in
  match cols with
  | [] => ["_group"]
  | _ => cols
  end.

(** The key of a row; [None] when one of its grouping values is null. *)
Definition group_key_of (cols : list string) (r : Task) : option (list string) :=
  mapM (get_cell r) cols.

(** Keys are ordered column by column, strings by code point. *)
Fixpoint key_compare (a b : list string) : comparison :=
  match a, b with
  | [], [] => Eq
  | [], _ :: _ => Lt
  | _ :: _, [] => Gt
  | x :: a', y :: b' =>
      match String.compare x y with
      | Eq => key_compare a' b'
      | c => c
      end
  end.

Definition key_le (a b : list string) : Prop := key_compare a b <> Gt.

#[global] Instance key_le_dec a b : Decision (key_le a b).
Proof. unfold key_le. apply _. Defined.

(** [work_df.groupby(cols)]: one group per distinct key in key order, rows
    in table order; a row with a null in a key column belongs to no group
    (pandas' default [dropna=True]). *)
Definition groupby (work_df : list Task) (cols : list string)
    : list (list string * list Task) :=
  let keys := merge_sort key_le (remove_dups (omap (group_key_of cols) work_df)) in
  map (fun k =>
         (k, List.filter (fun r => bool_decide (group_key_of cols r = Some k)) work_df))
      keys.

(** ** Period span of a group *)

Definition ts_min (a b : Timestamp) : Timestamp := if ts_leb a b then a else b.
Definition ts_max (a b : Timestamp) : Timestamp := if ts_leb a b then b else a.

(** [Series.min()] / [Series.max()] skipping NaT; [None] is NaT. *)
Fixpoint reduce_ts (f : Timestamp -> Timestamp -> Timestamp) (l : list Timestamp)
    : option Timestamp :=
  match l with
  | [] => None
  | x :: l' =>
      match reduce_ts f l' with
      | None => Some x
      | Some m => Some (f x m)
      end
  end.

Definition min_start (group_df : list Task) : option Timestamp :=
  reduce_ts ts_min (omap plan_start group_df).

Definition max_end (group_df : list Task) : option Timestamp :=
  reduce_ts ts_max (omap plan_end group_df).

(** ** Monthly active-budget aggregator *)

(** [(plan start <= month_end) & (plan end >= month_start)]. *)
Definition is_active (month : Period) (r : Task) : bool :=
  opt_ts_leb (plan_start r) (Some (end_time month))
  && opt_ts_leb (Some (start_time month)) (plan_end r).

Definition active_tasks (group_df : list Task) (month : Period) : list Task :=
  List.filter (is_active month) group_df.

(** [Series.sum()], skipping NaN. *)
Definition sum_budget (tasks : list Task) : Qc :=
  foldr Qcplus 0%Qc (omap budget_plan tasks).

Definition total_budget (group_df : list Task) (month : Period) : Qc :=
  sum_budget (active_tasks group_df month).

(** The dict [monthly_budgets], filled month by month. *)
Definition monthly_budgets (group_df : list Task) (months : list Period)
    : gmap Period Qc :=
  foldl (fun d month => <[ month := total_budget group_df month ]> d) ∅ months.

(** ** Distribution rule engine *)

(** [(first_month_percent, middle_months_percent, last_month_percent)] for a
    span of [num_months] months. *)
Definition month_percents (rule : Rule) (num_months : nat) : Qc * Qc * Qc :=
  if (num_months =? 1)%nat then (1, 0, 0)%Qc
  else if (num_months =? 2)%nat then
    (first_month_percent rule, 0%Qc,
     (middle_months_percent rule + last_month_percent rule)%Qc)
  else
    (first_month_percent rule,
     (middle_months_percent rule / amount (Z.of_nat num_months - 2))%Qc,
     last_month_percent rule).

(** The share of the month at position [i] (from 0) of [num_months]. *)
Definition month_percent (rule : Rule) (num_months i : nat) : Qc :=
  let '(first, middle, last) := month_percents rule num_months in
  if (i =? 0)%nat then first
  else if Z.of_nat i =? Z.of_nat num_months - 1 then last
  else middle.

(** ** Allocation engine *)

(** [enumerate(months)]. *)
Definition enumerate {A : Type} (l : list A) : list (nat * A) :=
  combine (seq 0 (length l)) l.

(** [dict(zip(grouping_cols, group_key))]. *)
Definition group_dict (cols : list string) (group_key : list string)
    : gmap string string :=
  foldl (fun d cv => <[ cv.1 := cv.2 ]> d) ∅ (zip cols group_key).

(** The dict [approved_row]. *)
Definition approved_row (cols : list string) (group_key : list string)
    (rule_name : string) (month : Period) (approved_budget month_total_budget : Qc)
    : OutRow :=
  [("month", CPeriod month);
   ("approved budget", CNum approved_budget);
   ("budget plan", CNum month_total_budget);
   ("rule_name", CStr rule_name)]
  ++ map (fun col => (col, CStr (default "" (group_dict cols group_key !! col))))
         (List.filter (fun col => negb (String.eqb col "_group")) cols).

(** The rows of one month: none when the baseline is zero. *)
Definition month_rows (rule : Rule) (rule_name : string) (cols : list string)
    (group_key : list string) (budgets : gmap Period Qc) (num_months : nat)
    (im : nat * Period) : list OutRow :=
  let '(i, month) := im in
  let month_total_budget := default 0%Qc (budgets !! month) in
  if bool_decide (month_total_budget = 0%Qc) then []
  else
    let approved_budget := (month_total_budget * month_percent rule num_months i)%Qc in
    [approved_row cols group_key rule_name month approved_budget month_total_budget].

(** The body of [for group_key, group_df in grouped]; [[]] is [continue]. *)
Definition process_group (rule : Rule) (rule_name : string) (cols : list string)
    (g : list string * list Task) : list OutRow :=
  let '(group_key, group_df) := g in
  match min_start group_df, max_end group_df with
  | Some min_start, Some max_end =>
      let months := generate_months min_start max_end in
      if (length months =? 0)%nat then []
      else
        let budgets := monthly_budgets group_df months in
        let num_months := length months in
        flat_map (month_rows rule rule_name cols group_key budgets num_months)
                 (enumerate months)
  | _, _ => []
  end.

Definition calculate_approved_budget (df : DataFrame) (rule_name : string) : Result :=
  let rule_name := resolve_rule_name rule_name in
  let rule := lookup_rule rule_name in
  match missing_cols df with
  | _ :: _ => ([], Some (MSG_MISSING_PREFIX +:+ join_comma (missing_cols df)))
  | [] =>
      let work_df := List.filter valid_mask (records df) in
      match work_df with
      | [] => ([], Some MSG_NO_VALID_DATA)
      | _ :: _ =>
          let cols := grouping_cols df in
          let grouped := groupby work_df cols in
          let approved_budget_rows := flat_map (process_group rule rule_name cols) grouped in
          match approved_budget_rows with
          | [] => ([], Some MSG_NO_ROWS)
          | _ :: _ => (approved_budget_rows, None)
          end
      end
  end.

(** ** Forecast overlay *)

(** Python truthiness of the error value: [None] and the empty string are
    false. *)
Definition truthy (error : option string) : bool :=
  match error with
  | Some s => negb (String.eqb s "")
  | None => false
  end.

(** [df["forecast budget"] = df["approved budget"]] on the output table. *)
Definition assign_forecast_column (rows : list OutRow) : list OutRow :=
  map (fun row => row ++ [("forecast budget", default CNaN (row_get "approved budget" row))])
      rows.

Definition calculate_forecast_budget (df : DataFrame) (edited_data : option DataFrame)
    (rule_name : string) : Result :=
  let work_df := match edited_data with Some e => e | None => df end in
  let '(approved_budget_df, error) := calculate_approved_budget work_df rule_name in
  if truthy error then ([], error)
  else
    let forecast_budget_df := approved_budget_df in
    if bool_decide ("approved budget" ∈ out_columns forecast_budget_df)
    then (assign_forecast_column forecast_budget_df, None)
    else (forecast_budget_df, None).

(** ** Reference notions used in the statements *)

(** Strictly earlier. *)
Definition ts_lt (a b : Timestamp) : Prop := ts_leb a b = true /\ a <> b.

(** A record the validity filter removes: a null date or budget, a budget
    that is not positive, or a start after the end. *)
Definition excluded (r : Task) : Prop :=
  plan_start r = None \/ plan_end r = None \/ budget_plan r = None
  \/ (exists b, budget_plan r = Some b /\ (b <= 0)%Qc)
  \/ (exists s e, plan_start r = Some s /\ plan_end r = Some e /\ ts_lt e s).

(** A row with a null in one of the grouping columns. *)
Definition null_key (cols : list string) (r : Task) : Prop :=
  exists col, In col cols /\ get_cell r col = None.

Definition has_key (cols : list string) (r : Task) : bool :=
  bool_decide (is_Some (group_key_of cols r)).

(** The table without the rows that have a null grouping value. *)
Definition drop_null_keys (df : DataFrame) : DataFrame :=
  {| columns := columns df;
     records := List.filter (has_key (grouping_cols df)) (records df) |}.

(** The period sequence of a group ([months] in the engine); empty when a
    bound is NaT. *)
Definition group_months (group_df : list Task) : list Period :=
  match min_start group_df, max_end group_df with
  | Some lo, Some hi => generate_months lo hi
  | _, _ => []
  end.

Definition nonzero_baseline (group_df : list Task) (m : Period) : bool :=
  negb (bool_decide (total_budget group_df m = 0%Qc)).

(** The rows of the month at position [im.1], with the baseline read off the
    group instead of the dict. *)
Definition month_rows_of (rule : Rule) (rule_name : string) (cols : list string)
    (group_key : list string) (group_df : list Task) (num_months : nat)
    (im : nat * Period) : list OutRow :=
  if bool_decide (total_budget group_df im.2 = 0%Qc) then []
  else [approved_row cols group_key rule_name im.2
          (total_budget group_df im.2 * month_percent rule num_months im.1)%Qc
          (total_budget group_df im.2)].

(** The shares of all positions of a span, added up. *)
Definition sum_shares (rule : Rule) (num_months : nat) : Qc :=
  foldr Qcplus 0%Qc (month_percent rule num_months <$> seq 0 num_months).

(** A row built by the engine. *)
Definition is_approved_row (row : OutRow) : Prop :=
  exists cols k rn m a t, row = approved_row cols k rn m a t.

(** Every timestamp of the row is a well-formed calendar value. *)
Definition wf_task (r : Task) : Prop :=
  (forall t, plan_start r = Some t -> wf_timestamp t)
  /\ (forall t, plan_end r = Some t -> wf_timestamp t).

(** Both timestamps of the row are calendar dates: midnight. *)
Definition date_only (r : Task) : Prop :=
  (forall t, plan_start r = Some t -> nanos t = 0)
  /\ (forall t, plan_end r = Some t -> nanos t = 0).

(** ** The schema message, written out *)

(** Whether [sub] occurs in [s] as a run of consecutive characters: whether
    a message names a column. *)
Fixpoint contains (sub s : string) : bool :=
  String.prefix sub s
  || match s with
     | EmptyString => false
     | String _ s' => contains sub s'
     end.

(** The message of a schema error, written out for each combination of
    required columns the table has; [None] when it has all three. *)
Definition schema_message (has_budget has_start has_end : bool) : option string :=
  match has_budget, has_start, has_end with
  | false, false, false =>
      Some "Отсутствуют необходимые колонки: budget plan, plan start, plan end"
  | false, false, true => Some "Отсутствуют необходимые колонки: budget plan, plan start"
  | false, true, false => Some "Отсутствуют необходимые колонки: budget plan, plan end"
  | false, true, true => Some "Отсутствуют необходимые колонки: budget plan"
  | true, false, false => Some "Отсутствуют необходимые колонки: plan start, plan end"
  | true, false, true => Some "Отсутствуют необходимые колонки: plan start"
  | true, true, false => Some "Отсутствуют необходимые колонки: plan end"
  | true, true, true => None
  end.

(** ** The forecast overlay as the specification words it *)

(** The AllocationRow of the specification: group key values, month,
    allocated budget, month total budget and rule name. *)
Record AllocationRow : Type := mkAllocationRow {
  group_values : list (option Cell);
  alloc_month : option Cell;
  allocated_budget : option Cell;
  month_total_budget : option Cell;
  alloc_rule_name : option Cell
}.

(** The AllocationRow a table row stands for, the allocated amount being the
    one exposed under [amount_label]. *)
Definition allocation_row (amount_label : string) (row : OutRow) : AllocationRow :=
  {| group_values := map (fun col => row_get col row) ["project name"; "section"; "task name"];
     alloc_month := row_get "month" row;
     allocated_budget := row_get amount_label row;
     month_total_budget := row_get "budget plan" row;
     alloc_rule_name := row_get "rule_name" row |}.

(** The overlay in the words of the specification: the allocation engine
    applied to the edited table when one is supplied, to the original one
    otherwise; its rows and its error. *)
Definition forecast_overlay_spec (df : DataFrame) (edited_data : option DataFrame)
    (rule_name : string) : list AllocationRow * option string :=
  let r := calculate_approved_budget (default df edited_data) rule_name in
  (allocation_row "approved budget" <$> r.1, r.2).

(** ** Example tables *)

Definition NANOS_PER_HOUR : Z := 3600 * 1000000000.

(** A calendar date at midnight. *)
Definition date (y m d : Z) : Timestamp :=
  {| year := y; month := m; day := d; nanos := 0 |}.

(** A date with a time of day given in hours. *)
Definition date_at (y m d hour : Z) : Timestamp :=
  {| year := y; month := m; day := d; nanos := hour * NANOS_PER_HOUR |}.

Definition all_columns : list string :=
  ["project name"; "section"; "task name"; "plan start"; "plan end"; "budget plan"].

(** One task from 2025-01-10 to 2025-03-20 with a budget of 100000. *)
Definition quarter_task : Task :=
  {| project_name := Some "P"; section := Some "S"; task_name := Some "T";
     plan_start := Some (date 2025 1 10); plan_end := Some (date 2025 3 20);
     budget_plan := Some (amount 100000) |}.

Definition quarter_df : DataFrame :=
  {| columns := all_columns; records := [quarter_task] |}.

(** Two tasks of one group: January, and mid-January to mid-February. *)
Definition january_task : Task :=
  {| project_name := Some "P"; section := Some "S"; task_name := Some "T";
     plan_start := Some (date 2025 1 1); plan_end := Some (date 2025 1 31);
     budget_plan := Some (amount 50000) |}.

Definition winter_task : Task :=
  {| project_name := Some "P"; section := Some "S"; task_name := Some "T";
     plan_start := Some (date 2025 1 15); plan_end := Some (date 2025 2 15);
     budget_plan := Some (amount 30000) |}.

Definition winter_df : DataFrame :=
  {| columns := all_columns; records := [january_task; winter_task] |}.

(** One task starting 2025-01-10 15:00 and ending 2025-01-20 10:00. *)
Definition afternoon_task : Task :=
  {| project_name := Some "P"; section := Some "S"; task_name := Some "T";
     plan_start := Some (date_at 2025 1 10 15); plan_end := Some (date_at 2025 1 20 10);
     budget_plan := Some (amount 100000) |}.

Definition afternoon_df : DataFrame :=
  {| columns := all_columns; records := [afternoon_task] |}.

(** One task starting 2025-01-10 15:00 and ending 2025-03-20 10:00. *)
Definition long_afternoon_task : Task :=
  {| project_name := Some "P"; section := Some "S"; task_name := Some "T";
     plan_start := Some (date_at 2025 1 10 15); plan_end := Some (date_at 2025 3 20 10);
     budget_plan := Some (amount 100000) |}.

Definition key_columns : list string := ["project name"; "section"; "task name"].

Definition pst_key : list string := ["P"; "S"; "T"].

(** The February row of [quarter_task]'s group. *)
Definition quarter_feb_row : OutRow :=
  approved_row key_columns pst_key "default" (2025, 2)
    (total_budget [quarter_task] (2025, 2)%Z * month_percent default_rule 3 1)%Qc
    (total_budget [quarter_task] (2025, 2)).

(** A table without the budget column. *)
Definition no_budget_df : DataFrame :=
  {| columns := ["project name"; "plan start"; "plan end"]; records := [quarter_task] |}.

(** A task whose start is after its end, and one without a section. *)
Definition inverted_task : Task :=
  {| project_name := Some "P"; section := Some "S"; task_name := Some "T";
     plan_start := Some (date 2025 3 20); plan_end := Some (date 2025 1 10);
     budget_plan := Some (amount 100000) |}.

Definition inverted_df : DataFrame :=
  {| columns := all_columns; records := [inverted_task] |}.

Definition no_section_task : Task :=
  {| project_name := Some "P"; section := None; task_name := Some "T";
     plan_start := Some (date 2025 1 10); plan_end := Some (date 2025 3 20);
     budget_plan := Some (amount 100000) |}.

Definition no_section_df : DataFrame :=
  {| columns := all_columns; records := [no_section_task] |}.

(** A calendar month: the month number is between 1 and 12. *)
Definition wf_period (p : Period) : Prop := 1 <= snd p <= 12.

(** The number under a label of an output row. *)
Definition row_num (label : string) (row : OutRow) : option Qc :=
  match row_get label row with
  | Some (CNum x) => Some x
  | _ => None
  end.

(** The month of an output row. *)
Definition row_month (row : OutRow) : option Period :=
  match row_get "month" row with
  | Some (CPeriod p) => Some p
  | _ => None
  end.

(** [rows[label].sum()]. *)
Definition column_sum (label : string) (rows : list OutRow) : Qc :=
  foldr Qcplus 0%Qc (omap (row_num label) rows).

(** Strictly before, in key order. *)
Definition key_lt (a b : list string) : Prop := key_compare a b = Lt.

(** A table without the rows that have a null grouping value, as a list. *)
Definition keyed_records (cols : list string) (l : list Task) : list Task :=
  List.filter (has_key cols) l.

(** One valid task in a table with the three required columns only. *)
Definition no_keys_df : DataFrame :=
  {| columns := ["plan start"; "plan end"; "budget plan"]; records := [quarter_task] |}.

(** A task of another project. *)
Definition other_project_task : Task :=
  {| project_name := Some "A"; section := Some "S"; task_name := Some "T";
     plan_start := Some (date 2025 2 1); plan_end := Some (date 2025 2 20);
     budget_plan := Some (amount 7000) |}.

(** ** The dashboards' tables *)

(** Chronological order of monthly periods (by ordinal). *)
Definition period_le (p q : Period) : Prop := month_index p <= month_index q.

#[global] Instance period_le_dec p q : Decision (period_le p q).
Proof. unfold period_le. apply _. Defined.

(** The rows of a table whose month is [p]. *)
Definition rows_of_month (p : Period) (rows : list OutRow) : list OutRow :=
  List.filter (fun row => bool_decide (row_month row = Some p)) rows.

(** [df.groupby("month").agg({amount_label: "sum", "budget plan": "sum"})
      .reset_index()]: one entry per month, in month order. *)
Definition group_by_month (amount_label : string) (rows : list OutRow)
    : list (Period * Qc * Qc) :=
  map (fun p => (p, column_sum amount_label (rows_of_month p rows),
                 column_sum "budget plan" (rows_of_month p rows)))
      (merge_sort period_le (remove_dups (omap row_month rows))).

Definition entry_le (a b : Period * Qc * Qc) : Prop := period_le a.1.1 b.1.1.

#[global] Instance entry_le_dec a b : Decision (entry_le a b).
Proof. unfold entry_le. apply _. Defined.

(** The monthly table of a dashboard: the grouping, then
    [sort_values("month")]. *)
Definition monthly_summary (amount_label : string) (rows : list OutRow)
    : list (Period * Qc * Qc) :=
  merge_sort entry_le (group_by_month amount_label rows).

(** [df[labels]]: the table restricted to the given columns; [None] is the
    [KeyError] raised when one of them is not a column of the table. *)
Definition select_columns (labels : list string) (rows : list OutRow)
    : option (list OutRow) :=
  if bool_decide (Forall (fun l => l ∈ out_columns rows) labels)
  then Some (map (fun row => map (fun l => (l, default CNaN (row_get l row))) labels) rows)
  else None.

(** The columns of the detail table of the approved-budget dashboard. *)
Definition detail_columns : list string :=
  ["project name"; "section"; "task name"; "month"; "budget plan"; "approved budget"].

Definition RUSSIAN_MONTHS : gmap Z string :=
  list_to_map
    [(1, "Январь"); (2, "Февраль"); (3, "Март"); (4, "Апрель"); (5, "Май");
     (6, "Июнь"); (7, "Июль"); (8, "Август"); (9, "Сентябрь"); (10, "Октябрь");
     (11, "Ноябрь"); (12, "Декабрь")].

(** [f"{year}"] for an integer. *)
Definition format_int (z : Z) : string :=
  DecimalString.NilZero.string_of_int (Z.to_int z).

(** [format_month_display] on a month cell: [None] is a null cell. *)
Definition format_month_display (period_val : option Period) : string :=
  match period_val with
  | None => "Н/Д"
  | Some p => default "Н/Д" (RUSSIAN_MONTHS !! p.2) +:+ " " +:+ format_int p.1
  end.

(** ** The edit table of the forecast dashboard *)

(** A Python [date]. *)
Record Date : Type := mkDate {
  date_year : Z;
  date_month : Z;
  date_day : Z
}.

(** [x.date()]: the time of day is dropped. *)
Definition timestamp_date (t : Timestamp) : Date :=
  {| date_year := year t; date_month := month t; date_day := day t |}.

(** [pd.to_datetime] of a [date]: midnight of that day. *)
Definition date_to_timestamp (d : Date) : Timestamp :=
  {| year := date_year d; month := date_month d; day := date_day d; nanos := 0 |}.

(** A valid calendar date, as every [date] object is. *)
Definition wf_date (d : Date) : Prop :=
  1 <= date_month d <= 12
  /\ 1 <= date_day d <= days_in_month (date_year d) (date_month d).

(** A row of the edit table: task, section, planned start and end as dates
    (or null), planned budget (or null). *)
Record EditRow : Type := mkEditRow {
  edit_task : option string;
  edit_section : option string;
  edit_start : option Date;
  edit_end : option Date;
  edit_budget : option Qc
}.

Definition wf_edit (e : EditRow) : Prop :=
  (forall d, edit_start e = Some d -> wf_date d)
  /\ (forall d, edit_end e = Some d -> wf_date d).

(** The edit table built on the first visit: the five columns of the
    project's rows, the two dates reduced to calendar dates. *)
Definition initial_edit_table (current_data : list Task) : list EditRow :=
  map (fun r =>
         {| edit_task := task_name r;
            edit_section := section r;
            edit_start := timestamp_date <$> plan_start r;
            edit_end := timestamp_date <$> plan_end r;
            edit_budget := budget_plan r |})
      current_data.

(** The row of [updated_data] at one position: the dates and the budget come
    from the edit table, everything else from the stored row. *)
Definition update_row (r : Task) (e : EditRow) : Task :=
  {| project_name := project_name r;
     section := section r;
     task_name := task_name r;
     plan_start := date_to_timestamp <$> edit_start e;
     plan_end := date_to_timestamp <$> edit_end e;
     budget_plan := edit_budget e |}.

(** [df[col] = ...] creates the column when the table does not have it. *)
Definition add_column (col : string) (cols : list string) : list string :=
  if bool_decide (col ∈ cols) then cols else cols ++ [col].

(** [updated_data]: the stored rows with the three columns taken from the
    edit table (which has its five columns), position by position, when both
    have the same number of rows; the stored rows unchanged otherwise. *)
Definition updated_data (current_data : DataFrame) (edited_df : list EditRow) : DataFrame :=
  if (length (records current_data) =? length edited_df)%nat
  then {| columns := add_column "budget plan"
                       (add_column "plan end" (add_column "plan start" (columns current_data)));
          records := zip_with update_row (records current_data) edited_df |}
  else current_data.

(** What [st.session_state] holds for the selected project: the stored rows
    ([forecast_edited_data_<project>]) and the edit table
    ([forecast_edit_table_<project>]), each absent until a run stores it. *)
Record Session : Type := mkSession {
  forecast_edited_data : option DataFrame;
  forecast_edit_table : option (list EditRow)
}.

(** The empty session of a first visit. *)
Definition first_visit : Session :=
  {| forecast_edited_data := None; forecast_edit_table := None |}.

(** The columns the dashboard asks of the project's rows. *)
Definition forecast_required_cols : list string :=
  ["budget plan"; "plan start"; "plan end"; "task name"].

(** The columns the first edit table is built from. *)
Definition edit_required_cols : list string :=
  ["task name"; "section"; "plan start"; "plan end"; "budget plan"].

(** The distinct non-null project names of the table (the source sorts
    them for the selection box). *)
Definition projects (df : DataFrame) : list string :=
  remove_dups (omap project_name (records df)).

(** [project_df]: the rows of [df] the project filter keeps, with the columns
    of [df]. *)
Definition project_df (df : DataFrame) (project_rows : list Task) : DataFrame :=
  {| columns := columns df; records := project_rows |}.

(** The stored rows once the session is initialised: the ones the session
    held, or the copy of the project's rows the run stores. *)
Definition session_data (project_df : DataFrame) (st : Session) : DataFrame :=
  default project_df (forecast_edited_data st).

(** The edit table once the session is initialised: the one the session
    held, or the one the run builds from the project's rows. *)
Definition session_edit_table (project_df : DataFrame) (st : Session) : list EditRow :=
  default (initial_edit_table (records project_df)) (forecast_edit_table st).

(** A run of [dashboard_forecast_budget] in which the form is not submitted,
    up to the table it computes; [project_rows] are the rows of [df] that the
    filter on the selected project keeps (the filter itself is not
    modelled).  [None] is a run that ends at one of the early returns, with a
    notice and no table: no project column, no project, no row of the
    project, a required column absent, a column of the edit table absent on
    the first visit, an empty edit table. *)
Definition dashboard_forecast_table (df : DataFrame) (project_rows : list Task)
    (st : Session) : option Result :=
  if negb (has_column df "project name") then None
  else if bool_decide (projects df = []) then None
  else if (length project_rows =? 0)%nat then None
  else if negb (forallb (has_column (project_df df project_rows)) forecast_required_cols)
  then None
  else if match forecast_edit_table st with
          | Some _ => false
          | None => negb (forallb (has_column (project_df df project_rows))
                            edit_required_cols)
          end
  then None
  else
    let edit_df := session_edit_table (project_df df project_rows) st in
    if (length edit_df =? 0)%nat then None
    else
      let current_data := session_data (project_df df project_rows) st in
      let updated_data := updated_data current_data edit_df in
      Some (calculate_forecast_budget df (Some updated_data) "default").

(** A row with the time of day of both dates dropped. *)
Definition drop_time_of_day (r : Task) : Task :=
  {| project_name := project_name r;
     section := section r;
     task_name := task_name r;
     plan_start := (fun t => date_to_timestamp (timestamp_date t)) <$> plan_start r;
     plan_end := (fun t => date_to_timestamp (timestamp_date t)) <$> plan_end r;
     budget_plan := budget_plan r |}.

(** An edit that moves a task to 2025-02-03 .. 2025-02-20 with a budget of
    7000. *)
Definition february_edit : EditRow :=
  {| edit_task := Some "T"; edit_section := Some "S";
     edit_start := Some (mkDate 2025 2 3); edit_end := Some (mkDate 2025 2 20);
     edit_budget := Some (amount 7000) |}.

(** The month and the numbers of an AllocationRow. *)
Definition alloc_period (ar : AllocationRow) : option Period :=
  match alloc_month ar with
  | Some (CPeriod p) => Some p
  | _ => None
  end.

Definition cell_num (c : option Cell) : option Qc :=
  match c with
  | Some (CNum x) => Some x
  | _ => None
  end.

(** The monthly table computed from AllocationRows: per month, in month
    order, the allocated amounts and the baselines added up. *)
Definition monthly_summary_of_rows (ars : list AllocationRow) : list (Period * Qc * Qc) :=
  merge_sort entry_le
    (map (fun p =>
            (p,
             foldr Qcplus 0%Qc
               (omap (fun ar => cell_num (allocated_budget ar))
                     (List.filter (fun ar => bool_decide (alloc_period ar = Some p)) ars)),
             foldr Qcplus 0%Qc
               (omap (fun ar => cell_num (month_total_budget ar))
                     (List.filter (fun ar => bool_decide (alloc_period ar = Some p)) ars))))
         (merge_sort period_le (remove_dups (omap alloc_period ars)))).

(** * Properties *)

(** ** Timestamps *)

Ltac ts_cases :=
  repeat match goal with
  | |- context [?x <? ?y] => destruct (Z.ltb_spec x y)
  | |- context [?x <=? ?y] => destruct (Z.leb_spec x y)
  | |- context [?x =? ?y] => destruct (Z.eqb_spec x y)
  | H : context [?x <? ?y] |- _ => destruct (Z.ltb_spec x y)
  | H : context [?x <=? ?y] |- _ => destruct (Z.leb_spec x y)
  | H : context [?x =? ?y] |- _ => destruct (Z.eqb_spec x y)
  end.

Lemma ts_leb_refl a : ts_leb a a = true.
Proof. unfold ts_leb. ts_cases; lia. Qed.

Lemma ts_leb_antisym a b : ts_leb a b = true -> ts_leb b a = true -> a = b.
Proof.
  destruct a, b. unfold ts_leb. simpl. intros H1 H2.
  ts_cases; try discriminate; f_equal; lia.
Qed.

Lemma ts_leb_total a b : ts_leb a b = false -> ts_leb b a = true.
Proof. unfold ts_leb. intros H. ts_cases; try discriminate; try done; lia. Qed.

Lemma ts_leb_trans a b c : ts_leb a b = true -> ts_leb b c = true -> ts_leb a c = true.
Proof. unfold ts_leb. intros H1 H2. ts_cases; try discriminate; try done; lia. Qed.

Lemma ts_leb_false a b : ts_leb a b = false <-> ts_lt b a.
Proof.
  split.
  - intros H. split; [by apply ts_leb_total|]. intros ->. by rewrite ts_leb_refl in H.
  - intros [H1 H2]. destruct (ts_leb a b) eqn:E; [|done].
    exfalso. apply H2. by apply ts_leb_antisym.
Qed.

Lemma wf_timestamp_month t : wf_timestamp t -> wf_month t.
Proof. by intros [? _]. Qed.

(** A well-formed timestamp lies inside its own month. *)
Lemma start_time_le t : wf_timestamp t -> ts_leb (start_time (to_period t)) t = true.
Proof.
  intros (Hm & Hd & Hn). unfold ts_leb, start_time, to_period. simpl.
  ts_cases; try done; lia.
Qed.

Lemma le_end_time t : wf_timestamp t -> ts_leb t (end_time (to_period t)) = true.
Proof.
  intros (Hm & Hd & Hn). unfold ts_leb, end_time, to_period. simpl.
  unfold NANOS_PER_DAY in *. ts_cases; try done; lia.
Qed.

(** ** The month loop *)

Lemma period_of_index_to_period t :
  wf_month t -> period_of_index (month_index (to_period t)) = to_period t.
Proof.
  unfold wf_month, period_of_index, month_index, to_period; simpl. intros H.
  f_equal.
  - symmetry. apply (Z.div_unique _ _ _ (month t - 1)); lia.
  - rewrite <- (Z.mod_unique (12 * year t + month t - 1) 12 (year t) (month t - 1)); lia.
Qed.

Lemma month_index_period_of_index i : month_index (period_of_index i) = i.
Proof.
  unfold month_index, period_of_index. simpl.
  pose proof (Z.div_mod (i - 1) 12). lia.
Qed.

Lemma next_month_index t :
  wf_month t -> month_index (to_period (next_month t)) = month_index (to_period t) + 1.
Proof.
  unfold wf_month, next_month, month_index, to_period. intros H.
  ts_cases; simpl; lia.
Qed.

Lemma next_month_wf t : wf_month t -> wf_month (next_month t).
Proof. unfold wf_month, next_month. intros H. ts_cases; simpl; lia. Qed.

Lemma next_month_day t : day (next_month t) = day t.
Proof. unfold next_month. ts_cases; reflexivity. Qed.

Lemma next_month_nanos t : nanos (next_month t) = nanos t.
Proof. unfold next_month. ts_cases; reflexivity. Qed.

(** On equal days the comparison looks at the month, then at the time of
    day. *)
Lemma ts_leb_same_day a b :
  wf_month a -> wf_month b -> day a = day b ->
  ts_leb a b = true <->
  month_index (to_period a) < month_index (to_period b)
  \/ (month_index (to_period a) = month_index (to_period b) /\ nanos a <= nanos b).
Proof.
  unfold wf_month, ts_leb, month_index, to_period; simpl. intros Ha Hb Hd.
  ts_cases; split; intros; try lia; try congruence; try done.
Qed.

Lemma loop_count_exit cur end_ :
  wf_month cur -> wf_month end_ -> day cur = day end_ ->
  ts_leb cur end_ = false -> loop_count cur end_ <= 0.
Proof.
  intros Hc He Hd E.
  destruct (decide (loop_count cur end_ <= 0)) as [|Hn]; [done|].
  assert (ts_leb cur end_ = true) as E'; [|congruence].
  apply ts_leb_same_day; try done.
  unfold loop_count in Hn. ts_cases; lia.
Qed.

(** With enough fuel the loop exits through its condition, having appended
    [loop_count] consecutive months. *)
Lemma month_loop_spec fuel : forall cur end_ acc,
  wf_month cur -> wf_month end_ -> day cur = day end_ ->
  month_index (to_period end_) - month_index (to_period cur) + 1 <= Z.of_nat fuel ->
  month_loop fuel cur end_ acc
  = Some (acc ++ (period_of_index <$> seqZ (month_index (to_period cur)) (loop_count cur end_))).
Proof.
  induction fuel as [|fuel IH]; intros cur end_ acc Hc He Hd Hf.
  - simpl. destruct (ts_leb cur end_) eqn:E.
    + apply ts_leb_same_day in E; try done. lia.
    + rewrite seqZ_nil by (by apply loop_count_exit). by rewrite app_nil_r.
  - simpl. destruct (ts_leb cur end_) eqn:E.
    + apply ts_leb_same_day in E; try done.
      rewrite IH; try done.
      * f_equal. rewrite <- app_assoc. f_equal. simpl.
        rewrite (seqZ_cons (month_index (to_period cur))).
        2:{ unfold loop_count. ts_cases; lia. }
        rewrite fmap_cons. rewrite period_of_index_to_period by done.
        f_equal. f_equal.
        unfold loop_count. rewrite next_month_index, next_month_nanos by done.
        f_equal. lia.
      * by apply next_month_wf.
      * by rewrite next_month_day.
      * rewrite next_month_index by done. lia.
    + rewrite seqZ_nil by (by apply loop_count_exit). by rewrite app_nil_r.
Qed.

(** The loop of the Period Generator terminates within [month_fuel]
    iterations. *)
Lemma month_loop_terminates lo hi :
  wf_month lo -> wf_month hi ->
  month_loop (month_fuel lo hi) (replace_day1 lo) (replace_day1 hi) []
  = Some (generate_months lo hi).
Proof.
  intros Hl Hh. unfold generate_months.
  rewrite month_loop_spec; try done.
  unfold month_fuel, to_period, replace_day1. simpl. lia.
Qed.

(** More fuel does not change the months produced. *)
Lemma month_loop_fuel_irrelevant lo hi fuel :
  wf_month lo -> wf_month hi -> (month_fuel lo hi <= fuel)%nat ->
  month_loop fuel (replace_day1 lo) (replace_day1 hi) [] = Some (generate_months lo hi).
Proof.
  intros Hl Hh Hf. rewrite <- month_loop_terminates by done.
  rewrite !month_loop_spec; try done.
  - unfold month_fuel, to_period, replace_day1. simpl. lia.
  - unfold month_fuel, to_period, replace_day1 in *. simpl in *. lia.
Qed.

Lemma generate_months_spec lo hi :
  wf_month lo -> wf_month hi ->
  generate_months lo hi
  = period_of_index <$> seqZ (month_index (to_period lo)) (loop_count lo hi).
Proof.
  intros Hl Hh. unfold generate_months.
  rewrite month_loop_spec; try done.
  unfold month_fuel, to_period, replace_day1. simpl. lia.
Qed.

(** The sequence is ordered and gap-free: consecutive elements are
    consecutive months. *)
Lemma generate_months_consecutive lo hi i p q :
  wf_month lo -> wf_month hi ->
  generate_months lo hi !! i = Some p ->
  generate_months lo hi !! S i = Some q ->
  month_index q = month_index p + 1.
Proof.
  intros Hl Hh. rewrite generate_months_spec by done.
  rewrite !list_lookup_fmap. intros Hp Hq.
  apply fmap_Some in Hp as (a & Ha & ->). apply fmap_Some in Hq as (b & Hb & ->).
  apply lookup_seqZ in Ha as [-> _]. apply lookup_seqZ in Hb as [-> _].
  rewrite !month_index_period_of_index. lia.
Qed.

Lemma generate_months_NoDup lo hi :
  wf_month lo -> wf_month hi -> NoDup (generate_months lo hi).
Proof.
  intros Hl Hh. rewrite generate_months_spec by done.
  apply NoDup_fmap_2; [|apply NoDup_seqZ].
  intros a b Hab. apply (f_equal month_index) in Hab.
  by rewrite !month_index_period_of_index in Hab.
Qed.

(** It starts at the month of the lower bound. *)
Lemma generate_months_head lo hi m months :
  wf_month lo -> wf_month hi ->
  generate_months lo hi = m :: months -> m = to_period lo.
Proof.
  intros Hl Hh. rewrite generate_months_spec by done.
  destruct (decide (0 < loop_count lo hi)) as [Hc|Hc].
  - rewrite seqZ_cons by done. rewrite fmap_cons.
    rewrite period_of_index_to_period by done. by intros [= <- _].
  - rewrite seqZ_nil by lia. done.
Qed.

(** When the time of day of the lower bound is not after that of the upper
    bound, the sequence covers every month from the first through the last. *)
Lemma generate_months_inclusive lo hi :
  wf_month lo -> wf_month hi -> nanos lo <= nanos hi ->
  generate_months lo hi = months_between (to_period lo) (to_period hi).
Proof.
  intros Hl Hh Hn. rewrite generate_months_spec by done.
  unfold months_between, loop_count. f_equal. f_equal.
  destruct (Z.leb_spec (nanos lo) (nanos hi)); lia.
Qed.

(** Otherwise the month of the upper bound is left out. *)
Lemma generate_months_short lo hi :
  wf_month lo -> wf_month hi -> nanos hi < nanos lo ->
  generate_months lo hi
  = period_of_index
      <$> seqZ (month_index (to_period lo))
               (month_index (to_period hi) - month_index (to_period lo)).
Proof.
  intros Hl Hh Hn. rewrite generate_months_spec by done.
  unfold loop_count. f_equal. f_equal.
  destruct (Z.leb_spec (nanos lo) (nanos hi)); lia.
Qed.

(** ** One group *)

Lemma monthly_budgets_fold group_df months : forall (d : gmap Period Qc) m,
  foldl (fun d month => <[ month := total_budget group_df month ]> d) d months !! m
  = if bool_decide (m ∈ months) then Some (total_budget group_df m) else d !! m.
Proof.
  induction months as [|x months IH]; intros d m; simpl.
  - done.
  - rewrite IH. case_bool_decide as H1; case_bool_decide as H2; try done.
    + exfalso. apply H2. by right.
    + apply elem_of_cons in H2 as [->|H2]; [|done].
      by rewrite lookup_insert_eq.
    + rewrite lookup_insert_ne; [done|]. intros ->. apply H2. by left.
Qed.

(** The dict holds the aggregate of every month of the sequence. *)
Lemma monthly_budgets_lookup group_df months m :
  m ∈ months -> monthly_budgets group_df months !! m = Some (total_budget group_df m).
Proof.
  intros H. unfold monthly_budgets. rewrite monthly_budgets_fold.
  by rewrite bool_decide_eq_true_2.
Qed.

Lemma flat_map_ext_In {A B} (f g : A -> list B) l :
  (forall a, In a l -> f a = g a) -> flat_map f l = flat_map g l.
Proof.
  induction l as [|a l IH]; simpl; intros H; [done|].
  rewrite H by (by left). rewrite IH; [done|]. intros; apply H; by right.
Qed.

Lemma in_combine_seq {A} (l : list A) i x : forall s,
  In (i, x) (combine (seq s (length l)) l) -> (s <= i)%nat /\ l !! (i - s)%nat = Some x.
Proof.
  induction l as [|a l IH]; intros s; simpl; [done|].
  intros [[= <- <-]|H].
  - split; [lia|]. by rewrite Nat.sub_diag.
  - apply IH in H as [H1 H2]. split; [lia|].
    replace (i - s)%nat with (S (i - S s)) by lia. done.
Qed.

Lemma enumerate_lookup {A} (l : list A) i x : In (i, x) (enumerate l) -> l !! i = Some x.
Proof.
  intros H. apply in_combine_seq in H as [_ H]. by rewrite Nat.sub_0_r in H.
Qed.

Lemma enumerate_In {A} (l : list A) i x : In (i, x) (enumerate l) -> In x l.
Proof. unfold enumerate. apply in_combine_r. Qed.

(** The rows of a group, month by month. *)
Lemma process_group_spec rule rule_name cols group_key group_df :
  process_group rule rule_name cols (group_key, group_df)
  = flat_map (month_rows_of rule rule_name cols group_key group_df
                (length (group_months group_df)))
             (enumerate (group_months group_df)).
Proof.
  unfold process_group, group_months.
  destruct (min_start group_df) as [lo|]; [|done].
  destruct (max_end group_df) as [hi|]; [|done].
  destruct (length (generate_months lo hi) =? 0)%nat eqn:E.
  - apply Nat.eqb_eq in E. apply nil_length_inv in E. by rewrite E.
  - apply flat_map_ext_In. intros [i m] Hin. apply enumerate_In in Hin.
    unfold month_rows, month_rows_of. simpl.
    rewrite monthly_budgets_lookup by (by apply list_elem_of_In). done.
Qed.

Lemma rows_months_from rule rn cols k g n (l : list Period) : forall s,
  omap (row_get "month")
       (flat_map (month_rows_of rule rn cols k g n) (combine (seq s (length l)) l))
  = CPeriod <$> List.filter (nonzero_baseline g) l.
Proof.
  induction l as [|m l IH]; intros s; simpl; [done|].
  rewrite omap_app, IH. unfold month_rows_of, nonzero_baseline. simpl.
  case_bool_decide; simpl; done.
Qed.

Lemma rows_length_from rule rn cols k g n (l : list Period) : forall s,
  length (flat_map (month_rows_of rule rn cols k g n) (combine (seq s (length l)) l))
  = length (List.filter (nonzero_baseline g) l).
Proof.
  induction l as [|m l IH]; intros s; simpl; [done|].
  rewrite length_app, IH. unfold month_rows_of, nonzero_baseline. simpl.
  case_bool_decide; simpl; done.
Qed.

Lemma foldr_Qcplus_acc (l : list Qc) (a : Qc) :
  foldr Qcplus a l = (foldr Qcplus 0 l + a)%Qc.
Proof.
  induction l as [|x l IH]; cbn [foldr]; [ring|]. rewrite IH. ring.
Qed.

Lemma sum_budget_app l1 l2 : sum_budget (l1 ++ l2) = (sum_budget l1 + sum_budget l2)%Qc.
Proof.
  unfold sum_budget. rewrite omap_app, foldr_app. apply foldr_Qcplus_acc.
Qed.

(** A member that is active in a month adds its whole budget to that
    month's aggregate. *)
Lemma total_budget_member before r after b m :
  budget_plan r = Some b -> is_active m r = true ->
  total_budget (before ++ r :: after) m = (b + total_budget (before ++ after) m)%Qc.
Proof.
  intros Hb Ha. unfold total_budget, active_tasks.
  rewrite !List.filter_app. cbn [List.filter]. rewrite Ha.
  rewrite !sum_budget_app.
  change (r :: List.filter (is_active m) after)
    with ([r] ++ List.filter (is_active m) after).
  rewrite sum_budget_app. unfold sum_budget at 2. cbn. rewrite Hb. cbn. ring.
Qed.

(** C2. For every month of a group's period sequence, the 100% baseline the
    engine stores for it is the sum of [budget plan] over exactly the members
    with [plan start <= month end] and [plan end >= month start]; a member
    active in the month contributes its full budget (no prorating), whatever
    other months it is active in. *)
Theorem baseline_sums_overlapping_members (group_df : list Task) (m : Period) :
  In m (group_months group_df) ->
  monthly_budgets group_df (group_months group_df) !! m
  = Some (foldr Qcplus 0%Qc
            (omap budget_plan
               (List.filter
                  (fun r => opt_ts_leb (plan_start r) (Some (end_time m))
                            && opt_ts_leb (Some (start_time m)) (plan_end r))
                  group_df)))
  /\ (forall before r after b,
        group_df = before ++ r :: after ->
        budget_plan r = Some b ->
        opt_ts_leb (plan_start r) (Some (end_time m)) = true ->
        opt_ts_leb (Some (start_time m)) (plan_end r) = true ->
        default 0%Qc (monthly_budgets group_df (group_months group_df) !! m)
        = (b + total_budget (before ++ after) m)%Qc).
Proof.
  intros Hm. apply list_elem_of_In in Hm.
  rewrite monthly_budgets_lookup by done. split; [done|].
  intros before r after b -> Hb H1 H2. simpl.
  apply total_budget_member; [done|]. unfold is_active. by rewrite H1, H2.
Qed.

Lemma baseline_sums_overlapping_members_witness :
  In (2025, 1) (group_months [january_task; winter_task])
  /\ monthly_budgets [january_task; winter_task]
       (group_months [january_task; winter_task]) !! (2025, 1)
     = Some (foldr Qcplus 0%Qc
               (omap budget_plan
                  (List.filter
                     (fun r => opt_ts_leb (plan_start r) (Some (end_time (2025, 1)))
                               && opt_ts_leb (Some (start_time (2025, 1))) (plan_end r))
                     [january_task; winter_task]))).
Proof.
  assert (In (2025, 1) (group_months [january_task; winter_task])) as H
    by (vm_compute; left; reflexivity).
  split; [exact H|].
  exact (proj1 (baseline_sums_overlapping_members [january_task; winter_task] (2025, 1) H)).
Defined.

(** C4. Every row emitted for a group carries the baseline of its month and
    that baseline multiplied by the share of the month's position; the share
    [month_percent rule n i] is a function of the rule, the length of the
    group's period sequence and the position alone. *)
Theorem allocated_is_baseline_times_share (rule : Rule) (rule_name : string)
    (cols group_key : list string) (group_df : list Task) (row : OutRow) :
  In row (process_group rule rule_name cols (group_key, group_df)) ->
  exists (i : nat) (m : Period),
    group_months group_df !! i = Some m
    /\ row_get "month" row = Some (CPeriod m)
    /\ row_get "budget plan" row = Some (CNum (total_budget group_df m))
    /\ row_get "approved budget" row
       = Some (CNum (total_budget group_df m
                     * month_percent rule (length (group_months group_df)) i)%Qc).
Proof.
  rewrite process_group_spec, in_flat_map.
  intros ([i m] & Hin & Hrow). apply enumerate_lookup in Hin.
  unfold month_rows_of in Hrow. simpl in Hrow.
  case_bool_decide; [done|]. destruct Hrow as [<-|[]].
  exists i, m. done.
Qed.

Lemma allocated_is_baseline_times_share_witness :
  In quarter_feb_row (process_group default_rule "default" key_columns (pst_key, [quarter_task]))
  /\ exists (i : nat) (m : Period),
       group_months [quarter_task] !! i = Some m
       /\ row_get "month" quarter_feb_row = Some (CPeriod m)
       /\ row_get "budget plan" quarter_feb_row = Some (CNum (total_budget [quarter_task] m))
       /\ row_get "approved budget" quarter_feb_row
          = Some (CNum (total_budget [quarter_task] m
                        * month_percent default_rule (length (group_months [quarter_task])) i)%Qc).
Proof.
  assert (In quarter_feb_row
             (process_group default_rule "default" key_columns (pst_key, [quarter_task]))) as H
    by (vm_compute; right; left; reflexivity).
  split; [exact H|].
  exact (allocated_is_baseline_times_share _ _ _ _ _ _ H).
Defined.

(** C8. The months of the rows emitted for a group are, in order, the months
    of its period sequence whose baseline is not zero: one row for each of
    them and none for a month with a zero baseline. *)
Theorem zero_baseline_months_skipped (rule : Rule) (rule_name : string)
    (cols group_key : list string) (group_df : list Task) :
  omap (row_get "month") (process_group rule rule_name cols (group_key, group_df))
  = CPeriod <$> List.filter (nonzero_baseline group_df) (group_months group_df)
  /\ length (process_group rule rule_name cols (group_key, group_df))
     = length (List.filter (nonzero_baseline group_df) (group_months group_df)).
Proof.
  rewrite process_group_spec. split.
  - apply rows_months_from.
  - apply rows_length_from.
Qed.

(** ** Shares *)

Lemma amount_add a b : amount (a + b) = (amount a + amount b)%Qc.
Proof.
  apply Qc_is_canon. unfold amount, Qcplus. simpl.
  rewrite !Qred_correct. rewrite inject_Z_plus. reflexivity.
Qed.

Lemma amount_1 : amount 1 = 1%Qc.
Proof. by apply Qc_is_canon. Qed.

Lemma amount_0 : amount 0 = 0%Qc.
Proof. by apply Qc_is_canon. Qed.

Lemma amount_nonzero z : z <> 0 -> amount z <> 0%Qc.
Proof.
  intros Hz H. apply (f_equal this) in H. unfold amount in H. simpl in H.
  assert (inject_Z z == 0)%Q as H'.
  { rewrite <- (Qred_correct (inject_Z z)). rewrite H. reflexivity. }
  unfold Qeq in H'. simpl in H'. lia.
Qed.

Lemma sum_constant (f : nat -> Qc) (c : Qc) n : forall s,
  (forall i, (s <= i < s + n)%nat -> f i = c) ->
  foldr Qcplus 0%Qc (f <$> seq s n) = (amount (Z.of_nat n) * c)%Qc.
Proof.
  induction n as [|n IH]; intros s H.
  - change (Z.of_nat 0) with 0. rewrite amount_0. cbn. ring.
  - cbn [seq fmap list_fmap foldr]. rewrite (H s) by lia.
    change (list_fmap nat Qc f (seq (S s) n)) with (f <$> seq (S s) n).
    rewrite IH by (intros; apply H; lia).
    rewrite Nat2Z.inj_succ. unfold Z.succ. rewrite amount_add, amount_1. ring.
Qed.

Lemma month_percent_single rule : month_percent rule 1 0 = 1%Qc.
Proof. reflexivity. Qed.

Lemma month_percent_first rule n : (2 <= n)%nat ->
  month_percent rule n 0 = first_month_percent rule.
Proof.
  intros H. unfold month_percent, month_percents.
  destruct (Nat.eqb_spec n 1); [lia|]. by destruct (Nat.eqb_spec n 2).
Qed.

Lemma month_percent_second_of_two rule :
  month_percent rule 2 1 = (middle_months_percent rule + last_month_percent rule)%Qc.
Proof. reflexivity. Qed.

Lemma month_percent_last rule n : (3 <= n)%nat ->
  month_percent rule n (n - 1) = last_month_percent rule.
Proof.
  intros H. unfold month_percent, month_percents.
  destruct (Nat.eqb_spec n 1); [lia|]. destruct (Nat.eqb_spec n 2); [lia|].
  destruct (Nat.eqb_spec (n - 1) 0); [lia|].
  destruct (Z.eqb_spec (Z.of_nat (n - 1)) (Z.of_nat n - 1)); [done|lia].
Qed.

Lemma month_percent_middle rule n i : (3 <= n)%nat -> (0 < i < n - 1)%nat ->
  month_percent rule n i
  = (middle_months_percent rule / amount (Z.of_nat n - 2))%Qc.
Proof.
  intros H Hi. unfold month_percent, month_percents.
  destruct (Nat.eqb_spec n 1); [lia|]. destruct (Nat.eqb_spec n 2); [lia|].
  destruct (Nat.eqb_spec i 0); [lia|].
  destruct (Z.eqb_spec (Z.of_nat i) (Z.of_nat n - 1)); [lia|done].
Qed.

(** Over a span of three months or more the shares add up to the three
    shares of the rule. *)
Lemma sum_shares_ge3 rule n : (3 <= n)%nat ->
  sum_shares rule n
  = (first_month_percent rule + middle_months_percent rule + last_month_percent rule)%Qc.
Proof.
  intros H. unfold sum_shares.
  replace n with (1 + ((n - 2) + 1))%nat at 2 by lia.
  rewrite !seq_app, !fmap_app, !foldr_app. cbn [seq fmap list_fmap foldr].
  replace (0 + 1 + (n - 2))%nat with (n - 1)%nat by lia.
  rewrite month_percent_last, month_percent_first by lia.
  change (list_fmap nat Qc (month_percent rule n))
    with (fmap (M:=list) (month_percent rule n)).
  rewrite foldr_Qcplus_acc.
  rewrite (sum_constant _ (middle_months_percent rule / amount (Z.of_nat n - 2))%Qc).
  2:{ intros i Hi. apply month_percent_middle; lia. }
  replace (Z.of_nat (n - 2)) with (Z.of_nat n - 2) by lia.
  rewrite Qcmult_div_r by (apply amount_nonzero; lia).
  ring.
Qed.

Lemma sum_shares_two rule :
  sum_shares rule 2
  = (first_month_percent rule + middle_months_percent rule + last_month_percent rule)%Qc.
Proof.
  unfold sum_shares. change (seq 0 2) with [0; 1]%nat. cbn [fmap list_fmap foldr].
  rewrite month_percent_second_of_two, month_percent_first by lia. ring.
Qed.

Lemma default_rule_total :
  (first_month_percent default_rule + middle_months_percent default_rule
   + last_month_percent default_rule = 1)%Qc.
Proof. by apply Qc_is_canon. Qed.

(** C1. Under the default rule a span of [N] months is shared out by
    position: one month gets 100%; of two months the first gets 0.50 and the
    second 0.45 + 0.05 = 0.50; of three or more the first gets 0.50, the last
    0.05 and each of the [N - 2] interior months 0.45 / (N - 2).  The shares
    of the span add up to 1. *)
Theorem default_rule_shares (N : nat) :
  (1 <= N)%nat ->
  (N = 1%nat -> month_percent default_rule N 0 = 1%Qc)
  /\ (N = 2%nat ->
      month_percent default_rule N 0 = percent 50
      /\ month_percent default_rule N 1 = (percent 45 + percent 5)%Qc
      /\ month_percent default_rule N 1 = percent 50)
  /\ ((3 <= N)%nat ->
      month_percent default_rule N 0 = percent 50
      /\ month_percent default_rule N (N - 1) = percent 5
      /\ forall i, (0 < i < N - 1)%nat ->
           month_percent default_rule N i = (percent 45 / amount (Z.of_nat N - 2))%Qc)
  /\ sum_shares default_rule N = 1%Qc.
Proof.
  intros HN. split; [|split; [|split]].
  - by intros ->.
  - intros ->. split; [done|]. split; [done|]. by apply Qc_is_canon.
  - intros H3. split; [by apply month_percent_first; lia|].
    split; [by apply month_percent_last|].
    intros i Hi. by apply month_percent_middle.
  - destruct (decide (N = 1%nat)) as [->|]; [by apply Qc_is_canon|].
    destruct (decide (N = 2%nat)) as [->|].
    + rewrite sum_shares_two. apply default_rule_total.
    + rewrite sum_shares_ge3 by lia. apply default_rule_total.
Qed.

Lemma default_rule_shares_witness :
  (1 <= 5)%nat
  /\ ((3 <= 5)%nat ->
      month_percent default_rule 5 0 = percent 50
      /\ month_percent default_rule 5 (5 - 1) = percent 5
      /\ forall i, (0 < i < 5 - 1)%nat ->
           month_percent default_rule 5 i = (percent 45 / amount (Z.of_nat 5 - 2))%Qc)
  /\ sum_shares default_rule 5 = 1%Qc.
Proof.
  split; [lia|].
  exact (proj2 (proj2 (default_rule_shares 5 ltac:(lia)))).
Defined.

(** ** Schema check *)

Lemma missing_cols_spec df col :
  In col (missing_cols df) <-> In col required_cols /\ col ∉ columns df.
Proof.
  unfold missing_cols, has_column. rewrite filter_In.
  rewrite negb_true_iff, bool_decide_eq_false. done.
Qed.

Lemma has_column_true df col : has_column df col = true <-> col ∈ columns df.
Proof. unfold has_column. apply bool_decide_eq_true. Qed.

Lemma has_column_false df col : has_column df col = false <-> col ∉ columns df.
Proof. unfold has_column. apply bool_decide_eq_false. Qed.

(** C6. When a required column is absent the engine returns, as data, no
    row and a message: the prefix followed by the missing required columns,
    comma-separated, which are exactly the required columns the table does
    not have.  Written out, the message is the one of [schema_message] for
    the required columns the table has, and a required column occurs in the
    message exactly when the table does not have it. *)
Theorem schema_error (df : DataFrame) (rule_name : string) :
  (exists col, In col required_cols /\ col ∉ columns df) ->
  exists msg,
    calculate_approved_budget df rule_name = ([], Some msg)
    /\ msg = MSG_MISSING_PREFIX +:+ join_comma (missing_cols df)
    /\ (forall col, In col (missing_cols df) <-> In col required_cols /\ col ∉ columns df)
    /\ schema_message (has_column df "budget plan") (has_column df "plan start")
         (has_column df "plan end") = Some msg
    /\ (forall col, In col required_cols -> contains col msg = true <-> col ∉ columns df).
Proof.
  intros (col & Hcol).
  exists (MSG_MISSING_PREFIX +:+ join_comma (missing_cols df)).
  split.
  { apply missing_cols_spec in Hcol. unfold calculate_approved_budget.
    destruct (missing_cols df); [destruct Hcol | done]. }
  split; [done|]. split; [apply missing_cols_spec|].
  destruct Hcol as [Hin Hnot]. apply has_column_false in Hnot.
  unfold missing_cols, required_cols. cbn [List.filter].
  destruct (has_column df "budget plan") eqn:Eb, (has_column df "plan start") eqn:Es,
    (has_column df "plan end") eqn:Ee; cbn [negb];
    try (split; [reflexivity|];
         intros c [<-|[<-|[<-|[]]]];
         (split; [intros _; by apply has_column_false
                 | intros _; vm_compute; reflexivity])
         || (split; [vm_compute; discriminate
                    | intros Hn; exfalso; apply Hn; by apply has_column_true])).
  exfalso. destruct Hin as [<-|[<-|[<-|[]]]]; congruence.
Qed.

Lemma schema_error_witness :
  (exists col, In col required_cols /\ col ∉ columns no_budget_df)
  /\ exists msg,
       calculate_approved_budget no_budget_df "default" = ([], Some msg)
       /\ msg = MSG_MISSING_PREFIX +:+ join_comma (missing_cols no_budget_df)
       /\ (forall col, In col (missing_cols no_budget_df)
                       <-> In col required_cols /\ col ∉ columns no_budget_df)
       /\ schema_message (has_column no_budget_df "budget plan")
            (has_column no_budget_df "plan start")
            (has_column no_budget_df "plan end") = Some msg
       /\ (forall col, In col required_cols ->
                       contains col msg = true <-> col ∉ columns no_budget_df).
Proof.
  assert (exists col, In col required_cols /\ col ∉ columns no_budget_df) as H.
  { exists "budget plan". split; [by left|]. compute_done. }
  split; [exact H|].
  exact (schema_error no_budget_df "default" H).
Defined.

Example schema_error_message :
  calculate_approved_budget no_budget_df "default"
  = ([], Some "Отсутствуют необходимые колонки: budget plan").
Proof. reflexivity. Qed.

(** ** Validity filter *)

Lemma valid_mask_false r : valid_mask r = false <-> excluded r.
Proof.
  unfold valid_mask, excluded, Qc_pos.
  destruct (plan_start r) as [s|], (plan_end r) as [e|], (budget_plan r) as [b|]; simpl;
    try (split; [intros _; auto | done]).
  - destruct (decide (0 < b)%Qc) as [Hb|Hb].
    + rewrite bool_decide_eq_true_2 by done. simpl. rewrite ts_leb_false. split.
      * intros H. right; right; right; right. by exists s, e.
      * intros [?|[?|[?|[(b' & [= <-] & Hle)|(s' & e' & [= <-] & [= <-] & Hlt)]]]]; try done.
        exfalso. by apply (Qclt_not_le 0 b).
    + rewrite bool_decide_eq_false_2 by done. simpl. split; [|done]. intros _.
      right; right; right; left. exists b. split; [done|]. by apply Qcnot_lt_le.
Qed.

Lemma valid_mask_true r : valid_mask r = true <-> ~ excluded r.
Proof.
  rewrite <- valid_mask_false.
  destruct (valid_mask r); split; intros H; try done; try congruence.
Qed.

(** What a valid record holds. *)
Lemma valid_mask_fields r :
  valid_mask r = true ->
  exists s e b, plan_start r = Some s /\ plan_end r = Some e /\ budget_plan r = Some b
                /\ (0 < b)%Qc /\ ts_leb s e = true.
Proof.
  unfold valid_mask, Qc_pos.
  destruct (plan_start r) as [s|], (plan_end r) as [e|], (budget_plan r) as [b|];
    simpl; try done.
  rewrite andb_true_iff, bool_decide_eq_true. intros [Hb Hle]. by exists s, e, b.
Qed.

Lemma filter_idem {A} (f : A -> bool) l : List.filter f (List.filter f l) = List.filter f l.
Proof.
  induction l as [|a l IH]; simpl; [done|].
  destruct (f a) eqn:E; simpl; rewrite ?E, IH; done.
Qed.

Lemma filter_comm {A} (f g : A -> bool) l :
  List.filter f (List.filter g l) = List.filter g (List.filter f l).
Proof.
  induction l as [|a l IH]; simpl; [done|].
  destruct (f a) eqn:Ef, (g a) eqn:Eg; simpl; rewrite ?Ef, ?Eg, IH; done.
Qed.

Lemma filter_nil_iff {A} (f : A -> bool) l :
  List.filter f l = [] <-> forall a, In a l -> f a = false.
Proof.
  induction l as [|x l IH]; simpl; [done|].
  destruct (f x) eqn:E.
  - split; [done|]. intros H. specialize (H x (or_introl eq_refl)). congruence.
  - rewrite IH. split.
    + intros H a [<-|Ha]; [done|by apply H].
    + intros H a Ha. apply H. by right.
Qed.

Lemma messages_distinct : MSG_NO_ROWS <> MSG_NO_VALID_DATA.
Proof. apply String.eqb_neq. reflexivity. Qed.

(** C7. Once the schema check has passed, the records that survive are
    exactly the records that are not excluded (null start, end or budget, a
    budget that is not positive, a start after the end); the rest of the
    engine sees only the survivors; and the "no valid data" error with no row
    is returned if and only if every record is excluded. *)
Theorem validity_filter (df : DataFrame) (rule_name : string) :
  missing_cols df = [] ->
  (forall r, In r (List.filter valid_mask (records df)) <-> In r (records df) /\ ~ excluded r)
  /\ calculate_approved_budget df rule_name
     = calculate_approved_budget
         {| columns := columns df; records := List.filter valid_mask (records df) |} rule_name
  /\ (calculate_approved_budget df rule_name = ([], Some MSG_NO_VALID_DATA)
      <-> forall r, In r (records df) -> excluded r).
Proof.
  intros Hm. split; [|split].
  - intros r. by rewrite filter_In, valid_mask_true.
  - unfold calculate_approved_budget, missing_cols, has_column, grouping_cols. simpl.
    by rewrite filter_idem.
  - unfold calculate_approved_budget. rewrite Hm.
    assert (List.filter valid_mask (records df) = []
            <-> forall r, In r (records df) -> excluded r) as Hnil.
    { rewrite filter_nil_iff. by setoid_rewrite valid_mask_false. }
    rewrite <- Hnil.
    destruct (List.filter valid_mask (records df)) as [|r0 w]; [done|].
    split; [|done]. intros H. exfalso.
    destruct (flat_map _ _) in H; [|discriminate].
    injection H as H. by apply messages_distinct.
Qed.

Lemma validity_filter_witness :
  missing_cols inverted_df = []
  /\ (calculate_approved_budget inverted_df "default" = ([], Some MSG_NO_VALID_DATA)
      <-> forall r, In r (records inverted_df) -> excluded r).
Proof.
  assert (missing_cols inverted_df = []) as H by reflexivity.
  split; [exact H|].
  exact (proj2 (proj2 (validity_filter inverted_df "default" H))).
Defined.

Example all_inverted_no_valid_data :
  calculate_approved_budget inverted_df "default"
  = ([], Some "Нет данных с валидными датами и бюджетом").
Proof. reflexivity. Qed.

(** ** Grouping *)

Lemma group_key_of_None cols r : group_key_of cols r = None <-> null_key cols r.
Proof.
  unfold group_key_of, null_key. induction cols as [|c cols IH]; simpl.
  - split; [done|]. intros (col & [] & _).
  - destruct (get_cell r c) eqn:Ec; simpl.
    + destruct (mapM (get_cell r) cols) eqn:Em; simpl.
      * split; [done|]. intros (col & [<-|Hin] & Hn); [congruence|].
        assert (Some l = None) as Hx; [|done]. apply IH. by exists col.
      * split; [|done]. intros _. destruct IH as [IH _].
        destruct (IH eq_refl) as (col & Hin & Hn). exists col. split; [by right|done].
    + split; [|done]. intros _. exists c. split; [by left|done].
Qed.

Lemma has_key_false cols r : has_key cols r = false <-> null_key cols r.
Proof.
  unfold has_key. rewrite bool_decide_eq_false, <- group_key_of_None.
  rewrite <- eq_None_not_Some. done.
Qed.

(** The members of a group are rows of the table with the key of the
    group. *)
Lemma groupby_member cols work_df k g r :
  In (k, g) (groupby work_df cols) -> In r g ->
  In r work_df /\ group_key_of cols r = Some k.
Proof.
  unfold groupby. rewrite in_map_iff. intros (k' & [= <- <-] & _).
  rewrite filter_In, bool_decide_eq_true. done.
Qed.

Lemma omap_cons {A B} (f : A -> option B) x l :
  omap f (x :: l) = match f x with Some y => y :: omap f l | None => omap f l end.
Proof. reflexivity. Qed.

Lemma omap_filter_has_key cols l :
  omap (group_key_of cols) (List.filter (has_key cols) l) = omap (group_key_of cols) l.
Proof.
  induction l as [|r l IH]; [done|]. cbn [List.filter].
  destruct (has_key cols r) eqn:Eh.
  - by rewrite !omap_cons, IH.
  - rewrite omap_cons. apply has_key_false, group_key_of_None in Eh. by rewrite Eh.
Qed.

Lemma filter_key_has_key cols k l :
  List.filter (fun r => bool_decide (group_key_of cols r = Some k)) (List.filter (has_key cols) l)
  = List.filter (fun r => bool_decide (group_key_of cols r = Some k)) l.
Proof.
  induction l as [|r l IH]; simpl; [done|].
  destruct (has_key cols r) eqn:Eh; simpl.
  - by rewrite IH.
  - apply has_key_false, group_key_of_None in Eh. rewrite Eh.
    by rewrite bool_decide_eq_false_2.
Qed.

(** Grouping does not see the rows with a null key. *)
Lemma groupby_drop_null cols l :
  groupby (List.filter (has_key cols) l) cols = groupby l cols.
Proof.
  unfold groupby. rewrite omap_filter_has_key.
  apply map_ext. intros k. by rewrite filter_key_has_key.
Qed.

Lemma groupby_all_null cols l :
  (forall r, In r l -> null_key cols r) -> groupby l cols = [].
Proof.
  intros H. rewrite <- groupby_drop_null.
  replace (List.filter (has_key cols) l) with (@nil Task); [done|].
  symmetry. apply filter_nil_iff. intros r Hr. apply has_key_false. by apply H.
Qed.

(** C9. A record with a null in a grouping column is a member of no group,
    and the rows the engine returns are those it returns for the table with
    such records removed; when every valid record has a null grouping value
    the engine returns no row and an error. *)
Theorem null_key_records_dropped (df : DataFrame) (rule_name : string) :
  (forall k g r,
      In (k, g) (groupby (List.filter valid_mask (records df)) (grouping_cols df)) ->
      In r g -> ~ null_key (grouping_cols df) r)
  /\ (calculate_approved_budget df rule_name).1
     = (calculate_approved_budget (drop_null_keys df) rule_name).1
  /\ ((forall r, In r (records df) -> valid_mask r = true -> null_key (grouping_cols df) r) ->
      (calculate_approved_budget df rule_name).1 = []
      /\ is_Some (calculate_approved_budget df rule_name).2).
Proof.
  split; [|split].
  - intros k g r Hg Hr Hn. destruct (groupby_member _ _ _ _ _ Hg Hr) as [_ Hk].
    apply group_key_of_None in Hn. congruence.
  - unfold calculate_approved_budget.
    change (missing_cols (drop_null_keys df)) with (missing_cols df).
    change (grouping_cols (drop_null_keys df)) with (grouping_cols df).
    destruct (missing_cols df); [|done].
    change (records (drop_null_keys df))
      with (List.filter (has_key (grouping_cols df)) (records df)).
    rewrite filter_comm.
    set (w := List.filter valid_mask (records df)).
    rewrite <- (groupby_drop_null (grouping_cols df) w).
    destruct w as [|r0 w']; [done|].
    destruct (List.filter (has_key (grouping_cols df)) (r0 :: w')) as [|r1 w1] eqn:E.
    + done.
    + by destruct (flat_map _ _).
  - intros H. unfold calculate_approved_budget.
    destruct (missing_cols df); [|by eauto].
    destruct (List.filter valid_mask (records df)) as [|r0 w] eqn:E; [by eauto|].
    rewrite groupby_all_null; [by eauto|].
    intros r Hr. rewrite <- E in Hr. apply filter_In in Hr as [? ?]. by apply H.
Qed.

(** A table whose only valid record has no section: no group, no row, the
    "no rows" error. *)
Example null_section_no_rows :
  groupby (List.filter valid_mask (records no_section_df)) (grouping_cols no_section_df) = []
  /\ calculate_approved_budget no_section_df "default"
     = ([], Some "Нет данных для расчета утвержденного бюджета").
Proof. split; reflexivity. Qed.

(** ** Outcomes of the engine *)

Lemma process_group_rows rule rn cols g row :
  In row (process_group rule rn cols g) -> is_approved_row row.
Proof.
  destruct g as [k g]. rewrite process_group_spec, in_flat_map.
  intros ([i m] & _ & H). unfold month_rows_of in H.
  case_bool_decide; [done|]. destruct H as [<-|[]]. repeat eexists.
Qed.

Lemma engine_rows df rn row :
  In row (calculate_approved_budget df rn).1 -> is_approved_row row.
Proof.
  unfold calculate_approved_budget.
  destruct (missing_cols df); [|done].
  destruct (List.filter valid_mask (records df)); [done|].
  destruct (flat_map _ _) eqn:E; [done|]. rewrite <- E. simpl.
  rewrite in_flat_map. intros (g & _ & H). by eapply process_group_rows.
Qed.

(** The engine returns either a non-empty message and no row, or rows and no
    message. *)
Lemma engine_outcome df rn :
  (exists e, calculate_approved_budget df rn = ([], Some e) /\ e <> "")
  \/ (exists row rows, calculate_approved_budget df rn = (row :: rows, None)).
Proof.
  unfold calculate_approved_budget.
  destruct (missing_cols df).
  2:{ left. eexists. split; [done|]. done. }
  destruct (List.filter valid_mask (records df)).
  { left. eexists. split; [done|]. done. }
  destruct (flat_map _ _).
  { left. eexists. split; [done|]. done. }
  right. eauto.
Qed.

Lemma approved_label_present row rows :
  is_approved_row row -> "approved budget" ∈ out_columns (row :: rows).
Proof.
  intros (cols & k & rn & m & a & t & ->). unfold out_columns.
  apply elem_of_remove_dups. simpl. set_solver.
Qed.

(** ** Forecast overlay *)

(** The overlay runs the engine on the active table, hands an error back
    unchanged and otherwise assigns the forecast column. *)
Lemma calculate_forecast_budget_eq df edited_data rule_name :
  calculate_forecast_budget df edited_data rule_name
  = match (calculate_approved_budget (default df edited_data) rule_name).2 with
    | Some e => ([], Some e)
    | None =>
        (assign_forecast_column
           (calculate_approved_budget (default df edited_data) rule_name).1, None)
    end.
Proof.
  unfold calculate_forecast_budget.
  replace (match edited_data with Some e => e | None => df end)
    with (default df edited_data) by (by destruct edited_data).
  pose proof (engine_rows (default df edited_data) rule_name) as Hrows.
  destruct (engine_outcome (default df edited_data) rule_name)
    as [(e & -> & He)|(row & rows & Hr)].
  - simpl. apply String.eqb_neq in He. by rewrite He.
  - rewrite Hr in *. simpl.
    rewrite bool_decide_eq_true_2; [done|].
    apply approved_label_present. apply Hrows. by left.
Qed.

Lemma assign_forecast_column_rows rows :
  (forall r, In r rows -> is_approved_row r) ->
  Forall2 (fun approved forecast =>
             exists x, row_get "approved budget" approved = Some (CNum x)
                       /\ forecast = approved ++ [("forecast budget", CNum x)])
          rows (assign_forecast_column rows).
Proof.
  unfold assign_forecast_column. induction rows as [|r l IH]; intros H; [constructor|].
  cbn [map]. constructor.
  - destruct (H r (or_introl eq_refl)) as (cols & k & rn & m & a & t & ->).
    by exists a.
  - apply IH. intros r' Hr'. apply H. by right.
Qed.

(** The overlay computes the allocation of the active table: the same error,
    and row by row the same row with the allocated amount repeated under
    ["forecast budget"]. *)
Lemma forecast_same_allocation df edited_data rule_name :
  (calculate_forecast_budget df edited_data rule_name).2
  = (calculate_approved_budget (default df edited_data) rule_name).2
  /\ Forall2 (fun approved forecast =>
                exists x, row_get "approved budget" approved = Some (CNum x)
                          /\ forecast = approved ++ [("forecast budget", CNum x)])
             (calculate_approved_budget (default df edited_data) rule_name).1
             (calculate_forecast_budget df edited_data rule_name).1.
Proof.
  rewrite calculate_forecast_budget_eq.
  pose proof (engine_rows (default df edited_data) rule_name) as Hrows.
  destruct (engine_outcome (default df edited_data) rule_name)
    as [(e & -> & He)|(row & rows & Hr)].
  - simpl. split; [done|]. constructor.
  - rewrite Hr in *. cbn [fst snd] in *. split; [done|].
    by apply assign_forecast_column_rows.
Qed.

(** Rows of the engine carry the grouping columns of the table. *)
Lemma process_group_rows_cols rule rn cols g row :
  In row (process_group rule rn cols g) ->
  exists k m a t, row = approved_row cols k rn m a t.
Proof.
  destruct g as [k g]. rewrite process_group_spec, in_flat_map.
  intros ([i m] & _ & H). unfold month_rows_of in H.
  case_bool_decide; [done|]. destruct H as [<-|[]]. repeat eexists.
Qed.

Lemma engine_rows_cols df rn row :
  In row (calculate_approved_budget df rn).1 ->
  exists k rn' m a t, row = approved_row (grouping_cols df) k rn' m a t.
Proof.
  unfold calculate_approved_budget.
  destruct (missing_cols df); [|done].
  destruct (List.filter valid_mask (records df)); [done|].
  destruct (flat_map _ _) eqn:E; [done|]. rewrite <- E. simpl.
  rewrite in_flat_map. intros (g & _ & H).
  apply process_group_rows_cols in H as (k0 & m0 & a0 & t0 & ->). repeat eexists.
Qed.

(** Read under ["forecast budget"], a row with the forecast column is the
    AllocationRow of the row it extends. *)
Lemma allocation_row_forecast df k rn m a t :
  allocation_row "forecast budget"
    (approved_row (grouping_cols df) k rn m a t ++ [("forecast budget", CNum a)])
  = allocation_row "approved budget" (approved_row (grouping_cols df) k rn m a t).
Proof.
  unfold grouping_cols.
  destruct (has_column df "project name"), (has_column df "section"),
    (has_column df "task name"); reflexivity.
Qed.

Lemma allocation_rows_forecast df rows :
  (forall r, In r rows ->
     exists k rn m a t, r = approved_row (grouping_cols df) k rn m a t) ->
  allocation_row "forecast budget" <$> assign_forecast_column rows
  = allocation_row "approved budget" <$> rows.
Proof.
  unfold assign_forecast_column. induction rows as [|r l IH]; intros H; [done|].
  cbn [map fmap list_fmap]. f_equal.
  - destruct (H r (or_introl eq_refl)) as (k & rn & m & a & t & ->).
    apply allocation_row_forecast.
  - apply IH. intros r' Hr'. apply H. by right.
Qed.

(** C5. The forecast overlay refines the allocation engine run on the edited
    table when one is supplied and on the original table otherwise: it
    returns the same error, and the same AllocationRows (group values, month,
    baseline, rule name and allocated amount) with the allocated amount read
    under ["forecast budget"] where the engine's table has it under
    ["approved budget"]. *)
Theorem forecast_overlay_refines_engine (df : DataFrame) (edited_data : option DataFrame)
    (rule_name : string) :
  (allocation_row "forecast budget" <$> (calculate_forecast_budget df edited_data rule_name).1,
   (calculate_forecast_budget df edited_data rule_name).2)
  = forecast_overlay_spec df edited_data rule_name.
Proof.
  unfold forecast_overlay_spec. rewrite calculate_forecast_budget_eq.
  pose proof (engine_rows_cols (default df edited_data) rule_name) as Hrows.
  destruct (engine_outcome (default df edited_data) rule_name)
    as [(e & -> & He)|(row & rows & Hr)]; [done|].
  rewrite Hr in *. cbn [fst snd] in *. f_equal.
  by apply (allocation_rows_forecast (default df edited_data)).
Qed.

(** The forecast table keeps the engine's columns and adds one. *)
Example forecast_table_labels :
  map (map fst) (calculate_forecast_budget quarter_df None "default").1
  = [ ["month"; "approved budget"; "budget plan"; "rule_name";
       "project name"; "section"; "task name"; "forecast budget"];
      ["month"; "approved budget"; "budget plan"; "rule_name";
       "project name"; "section"; "task name"; "forecast budget"];
      ["month"; "approved budget"; "budget plan"; "rule_name";
       "project name"; "section"; "task name"; "forecast budget"] ].
Proof. reflexivity. Qed.

(** ** Span of a group *)

Lemma reduce_ts_None f l : reduce_ts f l = None <-> l = [].
Proof.
  destruct l as [|x l]; simpl; [done|]. by destruct (reduce_ts f l).
Qed.

Lemma reduce_ts_min_spec l : forall lo,
  reduce_ts ts_min l = Some lo -> In lo l /\ forall x, In x l -> ts_leb lo x = true.
Proof.
  induction l as [|x l IH]; intros lo; simpl; [done|].
  destruct (reduce_ts ts_min l) as [m|] eqn:E.
  - destruct (IH m eq_refl) as [Hin Hle]. intros [= <-]. unfold ts_min.
    destruct (ts_leb x m) eqn:Exm.
    + split; [by left|]. intros y [<-|Hy]; [apply ts_leb_refl|].
      eapply ts_leb_trans; [exact Exm|by apply Hle].
    + split; [by right|]. intros y [<-|Hy]; [by apply ts_leb_total|by apply Hle].
  - apply reduce_ts_None in E as ->. intros [= <-].
    split; [by left|]. intros y [<-|[]]. apply ts_leb_refl.
Qed.

Lemma reduce_ts_max_spec l : forall hi,
  reduce_ts ts_max l = Some hi -> In hi l /\ forall x, In x l -> ts_leb x hi = true.
Proof.
  induction l as [|x l IH]; intros hi; simpl; [done|].
  destruct (reduce_ts ts_max l) as [m|] eqn:E.
  - destruct (IH m eq_refl) as [Hin Hle]. intros [= <-]. unfold ts_max.
    destruct (ts_leb x m) eqn:Exm.
    + split; [by right|]. intros y [<-|Hy]; [done|by apply Hle].
    + split; [by left|]. intros y [<-|Hy]; [apply ts_leb_refl|].
      eapply ts_leb_trans; [by apply Hle|by apply ts_leb_total].
  - apply reduce_ts_None in E as ->. intros [= <-].
    split; [by left|]. intros y [<-|[]]. apply ts_leb_refl.
Qed.

Lemma In_omap {A B} (f : A -> option B) l y :
  In y (omap f l) <-> exists x, In x l /\ f x = Some y.
Proof.
  rewrite <- list_elem_of_In, list_elem_of_omap.
  by setoid_rewrite list_elem_of_In.
Qed.

(** The lower bound of a group is the start of a member and is not after
    any start. *)
Lemma min_start_spec g lo :
  min_start g = Some lo ->
  (exists r, In r g /\ plan_start r = Some lo)
  /\ forall r s, In r g -> plan_start r = Some s -> ts_leb lo s = true.
Proof.
  intros H. apply reduce_ts_min_spec in H as [Hin Hle]. split.
  - by apply In_omap.
  - intros r s Hr Hs. apply Hle. apply In_omap. eauto.
Qed.

Lemma max_end_spec g hi :
  max_end g = Some hi ->
  (exists r, In r g /\ plan_end r = Some hi)
  /\ forall r e, In r g -> plan_end r = Some e -> ts_leb e hi = true.
Proof.
  intros H. apply reduce_ts_max_spec in H as [Hin Hle]. split.
  - by apply In_omap.
  - intros r e Hr He. apply Hle. apply In_omap. eauto.
Qed.

(** A group of valid records has both bounds. *)
Lemma valid_group_bounds g r0 :
  In r0 g -> (forall r, In r g -> valid_mask r = true) ->
  exists lo hi, min_start g = Some lo /\ max_end g = Some hi.
Proof.
  intros Hin Hv.
  destruct (valid_mask_fields r0 (Hv r0 Hin)) as (s & e & b & Hs & He & _).
  destruct (min_start g) as [lo|] eqn:El.
  - destruct (max_end g) as [hi|] eqn:Eh; [by eauto|].
    apply reduce_ts_None in Eh.
    assert (In e (omap plan_end g)) as Hx by (apply In_omap; eauto).
    rewrite Eh in Hx. destruct Hx.
  - apply reduce_ts_None in El.
    assert (In s (omap plan_start g)) as Hx by (apply In_omap; eauto).
    rewrite El in Hx. destruct Hx.
Qed.

(** The period sequence of a group whose bounds carry no later time of day
    at the start than at the end: every month from the month of the minimum
    start through the month of the maximum end. *)
Lemma group_months_inclusive g lo hi :
  min_start g = Some lo -> max_end g = Some hi ->
  wf_month lo -> wf_month hi -> nanos lo <= nanos hi ->
  group_months g = months_between (to_period lo) (to_period hi).
Proof.
  intros Hl Hh Wl Wh Hn. unfold group_months. rewrite Hl, Hh.
  by apply generate_months_inclusive.
Qed.

Lemma months_between_single p : months_between p p = [period_of_index (month_index p)].
Proof.
  unfold months_between. replace (month_index p - month_index p + 1) with 1 by lia.
  reflexivity.
Qed.

(** A group within one calendar month, under the same condition, has a
    one-element sequence. *)
Lemma group_months_single g lo hi :
  min_start g = Some lo -> max_end g = Some hi ->
  wf_month lo -> wf_month hi -> nanos lo <= nanos hi ->
  to_period lo = to_period hi ->
  group_months g = [to_period lo].
Proof.
  intros Hl Hh Wl Wh Hn Hp. rewrite (group_months_inclusive g lo hi) by done.
  rewrite <- Hp, months_between_single. by rewrite period_of_index_to_period.
Qed.

(** C3. The group of [afternoon_task] lies within January 2025, yet its
    period sequence is empty; the group of [long_afternoon_task] runs from
    January to March 2025, yet its sequence stops at February: the loop
    compares timestamps that keep their time of day, and the month of the
    maximum end is left out when the minimum start has the later time of
    day. *)
Theorem period_generator_misses_last_month :
  (min_start [afternoon_task] = Some (date_at 2025 1 10 15)
   /\ max_end [afternoon_task] = Some (date_at 2025 1 20 10)
   /\ group_months [afternoon_task] = []
   /\ months_between (2025, 1) (2025, 1) = [(2025, 1)])
  /\ (min_start [long_afternoon_task] = Some (date_at 2025 1 10 15)
      /\ max_end [long_afternoon_task] = Some (date_at 2025 3 20 10)
      /\ group_months [long_afternoon_task] = [(2025, 1); (2025, 2)]
      /\ months_between (2025, 1) (2025, 3) = [(2025, 1); (2025, 2); (2025, 3)]).
Proof. repeat split; reflexivity. Qed.

(** ** First month of a group *)

Lemma sum_budget_nonneg l :
  (forall r, In r l -> valid_mask r = true) -> (0 <= sum_budget l)%Qc.
Proof.
  unfold sum_budget. induction l as [|r l IH]; intros H; [done|].
  destruct (valid_mask_fields r (H r (or_introl eq_refl))) as (s & e & b & _ & _ & Hb & Hp & _).
  rewrite omap_cons, Hb. cbn [foldr].
  apply Qcplus_nonneg_nonneg; [by apply Qclt_le_weak|].
  apply IH. intros; apply H; by right.
Qed.

Lemma sum_budget_pos l r0 :
  In r0 l -> (forall r, In r l -> valid_mask r = true) -> (0 < sum_budget l)%Qc.
Proof.
  induction l as [|r l IH]; intros Hin H; [destruct Hin|].
  destruct (valid_mask_fields r (H r (or_introl eq_refl))) as (s & e & b & _ & _ & Hb & Hp & _).
  unfold sum_budget. rewrite omap_cons, Hb. cbn [foldr].
  apply Qcplus_pos_nonneg; [done|].
  apply sum_budget_nonneg. intros; apply H; by right.
Qed.

(** The member with the minimum start is active in the month of that
    start. *)
Lemma min_start_member_active r lo e :
  wf_timestamp lo -> plan_start r = Some lo -> plan_end r = Some e ->
  ts_leb lo e = true -> is_active (to_period lo) r = true.
Proof.
  intros Hw Hs He Hle. unfold is_active. rewrite Hs, He. simpl.
  rewrite le_end_time by done. simpl.
  eapply ts_leb_trans; [by apply start_time_le|done].
Qed.

(** When the period sequence of a group of valid records is not empty, its
    first month has a positive baseline. *)
Lemma first_month_baseline_positive g m months :
  (forall r, In r g -> valid_mask r = true) ->
  (forall r, In r g -> wf_task r) ->
  group_months g = m :: months ->
  (0 < total_budget g m)%Qc.
Proof.
  intros Hv Hw Hm. unfold group_months in Hm.
  destruct (min_start g) as [lo|] eqn:El; [|done].
  destruct (max_end g) as [hi|] eqn:Eh; [|done].
  destruct (min_start_spec g lo El) as [(r0 & Hr0 & Hs0) _].
  destruct (max_end_spec g hi Eh) as [(r1 & Hr1 & He1) _].
  assert (wf_timestamp lo) as Wl by (by apply (proj1 (Hw r0 Hr0))).
  assert (wf_timestamp hi) as Wh by (by apply (proj2 (Hw r1 Hr1))).
  apply generate_months_head in Hm as ->; try by apply wf_timestamp_month.
  destruct (valid_mask_fields r0 (Hv r0 Hr0)) as (s & e & b & Hs & He & Hb & Hp & Hle).
  rewrite Hs0 in Hs. injection Hs as <-.
  unfold total_budget, active_tasks. apply (sum_budget_pos _ r0).
  - apply filter_In. split; [done|]. by apply (min_start_member_active r0 lo e).
  - intros r Hr. apply filter_In in Hr as [Hr _]. by apply Hv.
Qed.

(** Such a group emits at least one row. *)
Lemma group_with_months_emits_row rule rn cols k g :
  (forall r, In r g -> valid_mask r = true) ->
  (forall r, In r g -> wf_task r) ->
  group_months g <> [] ->
  process_group rule rn cols (k, g) <> [].
Proof.
  intros Hv Hw Hm Hrows. apply (f_equal length) in Hrows.
  rewrite process_group_spec in Hrows. unfold enumerate in Hrows.
  rewrite rows_length_from in Hrows.
  destruct (group_months g) as [|m months] eqn:E; [done|].
  pose proof (first_month_baseline_positive g m months Hv Hw E) as Hpos.
  cbn [List.filter] in Hrows. unfold nonzero_baseline at 1 in Hrows.
  rewrite bool_decide_eq_false_2 in Hrows; [done|].
  intros H0. rewrite H0 in Hpos. by apply (Qclt_not_le 0 0).
Qed.

Lemma ts_leb_month_index a b :
  wf_month a -> wf_month b -> ts_leb a b = true ->
  month_index (to_period a) <= month_index (to_period b).
Proof.
  unfold wf_month, ts_leb, month_index, to_period. simpl. intros Ha Hb H.
  ts_cases; try discriminate; lia.
Qed.

(** The sequence of a non-empty group of valid calendar dates is not
    empty. *)
Lemma date_group_has_months g r0 :
  In r0 g ->
  (forall r, In r g -> valid_mask r = true) ->
  (forall r, In r g -> wf_task r) ->
  (forall r, In r g -> date_only r) ->
  group_months g <> [].
Proof.
  intros Hin Hv Hw Hd.
  destruct (valid_group_bounds g r0 Hin Hv) as (lo & hi & El & Eh).
  destruct (min_start_spec g lo El) as [(r1 & Hr1 & Hs1) Hmin].
  destruct (max_end_spec g hi Eh) as [(r2 & Hr2 & He2) Hmax].
  assert (wf_month lo) as Wl by (by apply wf_timestamp_month, (proj1 (Hw r1 Hr1))).
  assert (wf_month hi) as Wh by (by apply wf_timestamp_month, (proj2 (Hw r2 Hr2))).
  assert (nanos lo = 0) as Nl by (by apply (proj1 (Hd r1 Hr1))).
  assert (nanos hi = 0) as Nh by (by apply (proj2 (Hd r2 Hr2))).
  destruct (valid_mask_fields r0 (Hv r0 Hin)) as (s & e & b & Hs & He & _ & _ & Hle).
  assert (ts_leb lo hi = true) as Hlh.
  { apply (ts_leb_trans lo s hi); [exact (Hmin r0 s Hin Hs)|].
    apply (ts_leb_trans s e hi); [exact Hle | exact (Hmax r0 e Hin He)]. }
  apply ts_leb_month_index in Hlh; try done.
  rewrite (group_months_inclusive g lo hi) by (done || lia).
  unfold months_between. rewrite seqZ_cons by lia. done.
Qed.

Lemma groupby_group_nonempty cols l k g :
  In (k, g) (groupby l cols) -> exists r, In r g.
Proof.
  unfold groupby. rewrite in_map_iff. intros (k' & [= <- <-] & Hk).
  apply list_elem_of_In in Hk. rewrite merge_sort_Permutation in Hk.
  apply elem_of_remove_dups, list_elem_of_In, In_omap in Hk as (r & Hr & Hkey).
  exists r. apply filter_In. split; [done|]. by apply bool_decide_eq_true.
Qed.

(** On a table of well-formed calendar dates that yields a group, the engine
    returns rows. *)
Lemma date_table_has_rows df rn :
  missing_cols df = [] ->
  (forall r, In r (records df) -> wf_task r /\ date_only r) ->
  groupby (List.filter valid_mask (records df)) (grouping_cols df) <> [] ->
  exists row rows, calculate_approved_budget df rn = (row :: rows, None).
Proof.
  intros Hm Hrec Hg. unfold calculate_approved_budget. rewrite Hm.
  destruct (List.filter valid_mask (records df)) as [|r0 w] eqn:E; [done|].
  rewrite <- E in *.
  destruct (groupby _ _) as [|[k g] groups] eqn:Eg; [done|].
  assert (In (k, g) (groupby (List.filter valid_mask (records df)) (grouping_cols df)))
    as Hin by (rewrite Eg; by left).
  destruct (groupby_group_nonempty _ _ _ _ Hin) as (r & Hr).
  assert (forall r', In r' g -> In r' (records df) /\ valid_mask r' = true) as Hmem.
  { intros r' Hr'. destruct (groupby_member _ _ _ _ _ Hin Hr') as [Hf _].
    by apply filter_In in Hf. }
  assert (process_group (lookup_rule (resolve_rule_name rn)) (resolve_rule_name rn)
            (grouping_cols df) (k, g) <> []) as Hne.
  { apply group_with_months_emits_row.
    - intros r' Hr'. by apply Hmem.
    - intros r' Hr'. apply Hrec. by apply Hmem.
    - apply (date_group_has_months g r Hr).
      + intros r' Hr'. by apply Hmem.
      + intros r' Hr'. apply Hrec. by apply Hmem.
      + intros r' Hr'. apply Hrec. by apply Hmem. }
  cbn [flat_map].
  destruct (process_group _ _ _ (k, g)) as [|row rows]; [done|].
  simpl. eauto.
Qed.

(** C10. The table of [afternoon_task] yields one group of one valid
    record, yet that group emits no row and the engine falls through to the
    "no rows" error: the period sequence of the group is empty, so there is
    no first month. *)
Theorem single_month_group_emits_no_row :
  groupby (List.filter valid_mask (records afternoon_df)) (grouping_cols afternoon_df)
  = [(pst_key, [afternoon_task])]
  /\ group_months [afternoon_task] = []
  /\ process_group default_rule "default" key_columns (pst_key, [afternoon_task]) = []
  /\ calculate_approved_budget afternoon_df "default" = ([], Some MSG_NO_ROWS).
Proof. repeat split; reflexivity. Qed.

(** ** Worked examples *)

(** One task over January-March with 100000: 50000, 45000 and 5000 against a
    baseline of 100000 each month. *)
Example quarter_allocation :
  calculate_approved_budget quarter_df "default"
  = ([ approved_row key_columns pst_key "default" (2025, 1) (amount 50000) (amount 100000);
       approved_row key_columns pst_key "default" (2025, 2) (amount 45000) (amount 100000);
       approved_row key_columns pst_key "default" (2025, 3) (amount 5000) (amount 100000) ],
     None).
Proof. compute_done. Qed.

(** Two tasks of one group over January-February: baselines 80000 and 30000,
    allocations 40000 and 15000. *)
Example winter_allocation :
  calculate_approved_budget winter_df "default"
  = ([ approved_row key_columns pst_key "default" (2025, 1) (amount 40000) (amount 80000);
       approved_row key_columns pst_key "default" (2025, 2) (amount 15000) (amount 30000) ],
     None).
Proof. compute_done. Qed.

(** An unknown rule name falls back to the default rule. *)
Example unknown_rule_falls_back :
  calculate_approved_budget quarter_df "other" = calculate_approved_budget quarter_df "default".
Proof. reflexivity. Qed.

(** The forecast of the edited table, when one is supplied. *)
Example forecast_uses_edited_table :
  (calculate_forecast_budget quarter_df (Some winter_df) "default").1
  = assign_forecast_column (calculate_approved_budget winter_df "default").1.
Proof. reflexivity. Qed.

(** ** More on the period sequence *)

(** X1. The month loop of the Period Generator exits through its own
    condition: for well-formed bounds any number of iterations from
    [month_fuel] on yields the same finished list of months. *)
Theorem month_loop_exits (lo hi : Timestamp) (fuel : nat) :
  wf_timestamp lo -> wf_timestamp hi -> (month_fuel lo hi <= fuel)%nat ->
  month_loop fuel (replace_day1 lo) (replace_day1 hi) [] = Some (generate_months lo hi)
  /\ (length (generate_months lo hi) <= month_fuel lo hi)%nat.
Proof.
  intros Wl Wh Hf. apply wf_timestamp_month in Wl, Wh.
  split; [by apply month_loop_fuel_irrelevant|].
  rewrite generate_months_spec by done.
  rewrite length_fmap, length_seqZ. unfold month_fuel, loop_count.
  destruct (Z.leb_spec (nanos lo) (nanos hi)); lia.
Qed.

Lemma month_loop_exits_witness :
  wf_timestamp (date 2024 11 15) /\ wf_timestamp (date 2025 2 3)
  /\ (month_fuel (date 2024 11 15) (date 2025 2 3) <= 7)%nat
  /\ month_loop 7 (replace_day1 (date 2024 11 15)) (replace_day1 (date 2025 2 3)) []
     = Some (generate_months (date 2024 11 15) (date 2025 2 3)).
Proof.
  assert (wf_timestamp (date 2024 11 15)) as H1 by (vm_compute; intuition discriminate).
  assert (wf_timestamp (date 2025 2 3)) as H2 by (vm_compute; intuition discriminate).
  assert (month_fuel (date 2024 11 15) (date 2025 2 3) <= 7)%nat as H3 by (vm_compute; lia).
  split; [exact H1|]. split; [exact H2|]. split; [exact H3|].
  exact (proj1 (month_loop_exits _ _ 7%nat H1 H2 H3)).
Defined.

(** X2. The period sequence is a run of consecutive calendar months without
    repetition; when it is not empty it starts at the month of the lower
    bound, and every month in it is a calendar month. *)
Theorem period_sequence_consecutive (lo hi : Timestamp) :
  wf_timestamp lo -> wf_timestamp hi ->
  NoDup (generate_months lo hi)
  /\ (forall i p q,
        generate_months lo hi !! i = Some p ->
        generate_months lo hi !! S i = Some q ->
        month_index q = month_index p + 1)
  /\ (forall p, generate_months lo hi !! 0%nat = Some p -> p = to_period lo)
  /\ (forall p, In p (generate_months lo hi) -> wf_period p).
Proof.
  intros Wl Wh. apply wf_timestamp_month in Wl, Wh.
  split; [by apply generate_months_NoDup|].
  split; [intros i p q; by apply generate_months_consecutive|].
  split.
  - intros p Hp. destruct (generate_months lo hi) as [|m l] eqn:E; [done|].
    injection Hp as <-. by apply (generate_months_head lo hi m l).
  - intros p Hp. rewrite generate_months_spec in Hp by done.
    apply list_elem_of_In, list_elem_of_fmap in Hp as (i & -> & _).
    unfold wf_period, period_of_index. simpl.
    pose proof (Z.mod_pos_bound (i - 1) 12). lia.
Qed.

Lemma period_sequence_consecutive_witness :
  wf_timestamp (date 2024 11 15) /\ wf_timestamp (date 2025 2 3)
  /\ NoDup (generate_months (date 2024 11 15) (date 2025 2 3))
  /\ (forall p, generate_months (date 2024 11 15) (date 2025 2 3) !! 0%nat = Some p ->
                p = to_period (date 2024 11 15)).
Proof.
  assert (wf_timestamp (date 2024 11 15)) as H1 by (vm_compute; intuition discriminate).
  assert (wf_timestamp (date 2025 2 3)) as H2 by (vm_compute; intuition discriminate).
  split; [exact H1|]. split; [exact H2|].
  destruct (period_sequence_consecutive _ _ H1 H2) as (Ha & _ & Hc & _).
  split; [exact Ha | exact Hc].
Defined.

(** X3. Where the sequence ends depends on the times of day of the bounds:
    it runs through the month of the upper bound when the lower bound's time
    of day is not the later one, and stops one month earlier otherwise. *)
Theorem period_sequence_end (lo hi : Timestamp) :
  wf_timestamp lo -> wf_timestamp hi ->
  (nanos lo <= nanos hi ->
   generate_months lo hi = months_between (to_period lo) (to_period hi))
  /\ (nanos hi < nanos lo ->
      generate_months lo hi
      = months_between (to_period lo)
          (period_of_index (month_index (to_period hi) - 1))).
Proof.
  intros Wl Wh. apply wf_timestamp_month in Wl, Wh. split; intros Hn.
  - by apply generate_months_inclusive.
  - rewrite generate_months_short by done. unfold months_between.
    rewrite month_index_period_of_index. f_equal. f_equal. lia.
Qed.

Lemma period_sequence_end_witness :
  wf_timestamp (date_at 2025 1 10 15) /\ wf_timestamp (date_at 2025 3 20 10)
  /\ (nanos (date_at 2025 3 20 10) < nanos (date_at 2025 1 10 15) ->
      generate_months (date_at 2025 1 10 15) (date_at 2025 3 20 10)
      = months_between (to_period (date_at 2025 1 10 15))
          (period_of_index (month_index (to_period (date_at 2025 3 20 10)) - 1))).
Proof.
  assert (wf_timestamp (date_at 2025 1 10 15)) as H1 by (vm_compute; intuition discriminate).
  assert (wf_timestamp (date_at 2025 3 20 10)) as H2 by (vm_compute; intuition discriminate).
  split; [exact H1|]. split; [exact H2|].
  exact (proj2 (period_sequence_end _ _ H1 H2)).
Defined.

(** ** Activity of a task *)

Lemma ts_leb_end_time s m :
  wf_timestamp s -> wf_period m ->
  ts_leb s (end_time m) = true <-> month_index (to_period s) <= month_index m.
Proof.
  destruct s as [y mo d n], m as [my mm].
  unfold wf_timestamp, wf_period, ts_leb, end_time, month_index, to_period, NANOS_PER_DAY.
  simpl. intros (Hm & Hd & Hn) Hp.
  ts_cases; subst; split; intros; try done; try lia;
    assert (y = my) by lia; assert (mo = mm) by lia; subst; lia.
Qed.

Lemma ts_leb_start_time e m :
  wf_timestamp e -> wf_period m ->
  ts_leb (start_time m) e = true <-> month_index m <= month_index (to_period e).
Proof.
  destruct e as [y mo d n], m as [my mm].
  unfold wf_timestamp, wf_period, ts_leb, start_time, month_index, to_period, NANOS_PER_DAY.
  simpl. intros (Hm & Hd & Hn) Hp.
  ts_cases; subst; split; intros; try done; try lia;
    assert (y = my) by lia; assert (mo = mm) by lia; subst; lia.
Qed.

(** X4. A task is active in a calendar month exactly when the month lies
    between the month of its start and the month of its end; the day and the
    time of day of the two dates play no part. *)
Theorem active_iff_month_in_range (r : Task) (s e : Timestamp) (m : Period) :
  plan_start r = Some s -> plan_end r = Some e ->
  wf_timestamp s -> wf_timestamp e -> wf_period m ->
  is_active m r = true
  <-> month_index (to_period s) <= month_index m <= month_index (to_period e).
Proof.
  intros Hs He Ws We Wm. unfold is_active. rewrite Hs, He. simpl.
  rewrite andb_true_iff, ts_leb_end_time, ts_leb_start_time by done. done.
Qed.

Lemma active_iff_month_in_range_witness :
  plan_start winter_task = Some (date 2025 1 15)
  /\ plan_end winter_task = Some (date 2025 2 15)
  /\ wf_timestamp (date 2025 1 15) /\ wf_timestamp (date 2025 2 15)
  /\ wf_period (2025, 2)
  /\ (is_active (2025, 2) winter_task = true
      <-> month_index (to_period (date 2025 1 15)) <= month_index (2025, 2)
          <= month_index (to_period (date 2025 2 15))).
Proof.
  assert (wf_timestamp (date 2025 1 15)) as H1 by (vm_compute; intuition discriminate).
  assert (wf_timestamp (date 2025 2 15)) as H2 by (vm_compute; intuition discriminate).
  assert (wf_period (2025, 2)) as H3 by (vm_compute; intuition discriminate).
  split; [reflexivity|]. split; [reflexivity|].
  split; [exact H1|]. split; [exact H2|]. split; [exact H3|].
  exact (active_iff_month_in_range winter_task _ _ _ eq_refl eq_refl H1 H2 H3).
Defined.

(** ** More on the engine's result *)

Lemma resolve_rule_name_default rn : resolve_rule_name rn = "default".
Proof.
  unfold resolve_rule_name, budget_rules.
  destruct (decide (rn = "default")) as [->|Hne]; [done|].
  by rewrite lookup_singleton_ne.
Qed.

Lemma lookup_rule_default rn : lookup_rule (resolve_rule_name rn) = default_rule.
Proof. by rewrite resolve_rule_name_default. Qed.

(** X5. The engine returns either no row together with a non-empty message,
    or at least one row and no message: an empty table never comes without
    an explanation, and rows never come with an error. *)
Theorem engine_result_exclusive (df : DataFrame) (rule_name : string) :
  ((calculate_approved_budget df rule_name).1 = []
   <-> is_Some (calculate_approved_budget df rule_name).2)
  /\ (calculate_approved_budget df rule_name).2 <> Some ""
  /\ (truthy (calculate_approved_budget df rule_name).2 = true
      <-> (calculate_approved_budget df rule_name).1 = []).
Proof.
  destruct (engine_outcome df rule_name) as [(e & -> & He)|(row & rows & ->)]; simpl.
  - split; [by split; eauto|]. split; [congruence|].
    apply String.eqb_neq in He. by rewrite He.
  - split; [split; [done|by intros [? ?]]|]. split; [done|]. by split.
Qed.

(** X6. The rule registry holds the default rule only, so every rule name
    gives the result of ["default"], and every row names that rule. *)
Theorem any_rule_name_is_default (df : DataFrame) (rule_name : string) :
  calculate_approved_budget df rule_name = calculate_approved_budget df "default"
  /\ forall row, In row (calculate_approved_budget df rule_name).1 ->
                 row_get "rule_name" row = Some (CStr "default").
Proof.
  assert (calculate_approved_budget df rule_name = calculate_approved_budget df "default") as H.
  { unfold calculate_approved_budget. by rewrite !resolve_rule_name_default. }
  split; [exact H|]. rewrite H. unfold calculate_approved_budget.
  destruct (missing_cols df); [|done].
  destruct (List.filter valid_mask (records df)); [done|].
  destruct (flat_map _ _) eqn:E; [done|]. rewrite <- E. simpl.
  intros row. rewrite in_flat_map. intros (g & _ & Hrow).
  apply process_group_rows_cols in Hrow as (k0 & m0 & a0 & t0 & ->). done.
Qed.

(** ** Bounds on the allocated amounts *)

Lemma amount_le a b : a <= b -> (amount a <= amount b)%Qc.
Proof.
  intros H. unfold Qcle, amount. simpl. rewrite !Qred_correct.
  unfold Qle. simpl. lia.
Qed.

Lemma percent_45_le_amount k : 1 <= k -> (percent 45 <= amount k)%Qc.
Proof.
  intros H. apply (Qcle_trans _ (amount 1)); [done|]. by apply amount_le.
Qed.

(** Under the default rule every position gets a share in (0, 1]. *)
Lemma default_share_bounds n i :
  (i < n)%nat ->
  (0 < month_percent default_rule n i)%Qc /\ (month_percent default_rule n i <= 1)%Qc.
Proof.
  intros Hi.
  destruct (decide (n = 1%nat)) as [->|N1].
  { replace i with 0%nat by lia. done. }
  destruct (decide (n = 2%nat)) as [->|N2].
  { destruct i as [|[|i]]; [done|done|lia]. }
  destruct (decide (i = 0%nat)) as [->|I0].
  { rewrite month_percent_first by lia. done. }
  destruct (decide (i = (n - 1)%nat)) as [->|I1].
  { rewrite month_percent_last by lia. done. }
  rewrite month_percent_middle by lia. simpl.
  assert (0 < amount (Z.of_nat n - 2))%Qc as Hpos.
  { apply (Qclt_le_trans _ (amount 1)); [done|]. apply amount_le. lia. }
  split.
  - apply Qcmult_pos_pos; [done|]. by apply Qcinv_pos.
  - apply (Qcmult_le_mono_pos_r _ _ (amount (Z.of_nat n - 2))); [done|].
    unfold Qcdiv. rewrite <- Qcmult_assoc, (Qcmult_comm (/ _)), Qcmult_inv_r.
    + rewrite Qcmult_1_r, Qcmult_1_l. apply percent_45_le_amount. lia.
    + intros H0. rewrite H0 in Hpos. by apply (Qclt_not_le 0 0).
Qed.

Lemma total_budget_nonneg g m :
  (forall r, In r g -> valid_mask r = true) -> (0 <= total_budget g m)%Qc.
Proof.
  intros Hv. unfold total_budget, active_tasks. apply sum_budget_nonneg.
  intros r Hr. apply filter_In in Hr as [Hr _]. by apply Hv.
Qed.

(** X7. Every row the engine returns has a positive baseline and an
    allocated amount between zero and that baseline. *)
Theorem allocated_within_baseline (df : DataFrame) (rule_name : string) (row : OutRow) :
  In row (calculate_approved_budget df rule_name).1 ->
  exists a t,
    row_get "approved budget" row = Some (CNum a)
    /\ row_get "budget plan" row = Some (CNum t)
    /\ (0 < t)%Qc /\ (0 <= a)%Qc /\ (a <= t)%Qc.
Proof.
  unfold calculate_approved_budget. rewrite lookup_rule_default.
  destruct (missing_cols df); [|done].
  destruct (List.filter valid_mask (records df)) as [|r0 w] eqn:E; [done|].
  rewrite <- E.
  destruct (flat_map _ _) eqn:Ef; [done|]. rewrite <- Ef. simpl.
  rewrite in_flat_map. intros ([k g] & Hg & Hrow).
  assert (forall r, In r g -> valid_mask r = true) as Hv.
  { intros r Hr. destruct (groupby_member _ _ _ _ _ Hg Hr) as [Hf _].
    by apply filter_In in Hf as [_ ?]. }
  rewrite process_group_spec, in_flat_map in Hrow.
  destruct Hrow as ([i m] & Hin & Hrow). apply enumerate_lookup in Hin.
  unfold month_rows_of in Hrow. simpl in Hrow.
  case_bool_decide as Hz; [done|]. destruct Hrow as [<-|[]].
  pose proof (total_budget_nonneg g m Hv) as Hge.
  assert (0 < total_budget g m)%Qc as Hpos.
  { apply Qcle_lt_or_eq in Hge as [?|Heq]; [done|]. by rewrite <- Heq in Hz. }
  apply lookup_lt_Some in Hin.
  destruct (default_share_bounds (length (group_months g)) i Hin) as [Hs0 Hs1].
  eexists _, _. split; [reflexivity|]. split; [reflexivity|]. split; [done|]. split.
  - apply Qcmult_nonneg_nonneg; by apply Qclt_le_weak.
  - rewrite <- (Qcmult_1_r (total_budget g m)) at 2.
    apply Qcmult_le_mono_nonneg_l; [by apply Qclt_le_weak|done].
Qed.

Lemma allocated_within_baseline_witness :
  In quarter_feb_row (calculate_approved_budget quarter_df "default").1
  /\ exists a t,
       row_get "approved budget" quarter_feb_row = Some (CNum a)
       /\ row_get "budget plan" quarter_feb_row = Some (CNum t)
       /\ (0 < t)%Qc /\ (0 <= a)%Qc /\ (a <= t)%Qc.
Proof.
  assert (In quarter_feb_row (calculate_approved_budget quarter_df "default").1) as H
    by (vm_compute; right; left; reflexivity).
  split; [exact H|].
  exact (allocated_within_baseline quarter_df "default" quarter_feb_row H).
Defined.

(** ** Rows of a group *)

(** X8. The first row of a group of valid records with a non-empty period
    sequence is the row of the first month of the sequence, the month of the
    group's minimum start, with a positive baseline; under the default rule
    it is allocated the whole baseline when the sequence has one month and
    half of it otherwise. *)
Theorem first_row_is_first_month (rule_name : string) (cols group_key : list string)
    (group_df : list Task) (lo : Timestamp) (m : Period) (months : list Period) :
  (forall r, In r group_df -> valid_mask r = true) ->
  (forall r, In r group_df -> wf_task r) ->
  min_start group_df = Some lo ->
  group_months group_df = m :: months ->
  m = to_period lo
  /\ (0 < total_budget group_df m)%Qc
  /\ exists rows,
       process_group default_rule rule_name cols (group_key, group_df)
       = approved_row cols group_key rule_name m
           (total_budget group_df m * (if decide (months = []) then 1 else percent 50))%Qc
           (total_budget group_df m)
         :: rows.
Proof.
  intros Hv Hw Hlo Hm.
  pose proof (first_month_baseline_positive group_df m months Hv Hw Hm) as Hpos.
  split; [|split; [done|]].
  - unfold group_months in Hm. rewrite Hlo in Hm.
    destruct (max_end group_df) as [hi|] eqn:Eh; [|done].
    destruct (min_start_spec group_df lo Hlo) as [(r0 & Hr0 & Hs0) _].
    destruct (max_end_spec group_df hi Eh) as [(r1 & Hr1 & He1) _].
    apply (generate_months_head lo hi m months); [| |done].
    + by apply wf_timestamp_month, (proj1 (Hw r0 Hr0)).
    + by apply wf_timestamp_month, (proj2 (Hw r1 Hr1)).
  - rewrite process_group_spec, Hm. unfold enumerate. cbn [length seq combine flat_map].
    unfold month_rows_of at 1. cbn [fst snd].
    rewrite bool_decide_eq_false_2.
    2:{ intros H0. rewrite H0 in Hpos. by apply (Qclt_not_le 0 0). }
    eexists. cbn [app]. f_equal. f_equal. f_equal.
    destruct months as [|m' months']; [done|].
    rewrite decide_False by done. by rewrite month_percent_first by (simpl; lia).
Qed.

Lemma first_row_is_first_month_witness :
  (forall r, In r [quarter_task] -> valid_mask r = true)
  /\ (forall r, In r [quarter_task] -> wf_task r)
  /\ min_start [quarter_task] = Some (date 2025 1 10)
  /\ group_months [quarter_task] = (2025, 1) :: [(2025, 2); (2025, 3)]
  /\ (2025, 1) = to_period (date 2025 1 10)
  /\ (0 < total_budget [quarter_task] (2025, 1)%Z)%Qc.
Proof.
  assert (forall r, In r [quarter_task] -> valid_mask r = true) as H1.
  { intros r [<-|[]]. reflexivity. }
  assert (forall r, In r [quarter_task] -> wf_task r) as H2.
  { intros r [<-|[]]. split; intros t [= <-]; vm_compute; intuition discriminate. }
  assert (min_start [quarter_task] = Some (date 2025 1 10)) as H3 by reflexivity.
  assert (group_months [quarter_task] = (2025, 1) :: [(2025, 2); (2025, 3)]) as H4
    by reflexivity.
  split; [exact H1|]. split; [exact H2|]. split; [exact H3|]. split; [exact H4|].
  destruct (first_row_is_first_month "default" key_columns pst_key _ _ _ _ H1 H2 H3 H4)
    as (Ha & Hb & _).
  split; [exact Ha | exact Hb].
Defined.

(** ** Tables of calendar dates *)

Lemma groupby_nil_iff cols l :
  groupby l cols = [] <-> forall r, In r l -> null_key cols r.
Proof.
  split; [|apply groupby_all_null].
  intros Hg r Hr. apply has_key_false.
  destruct (has_key cols r) eqn:Eh; [|done]. exfalso.
  unfold has_key in Eh. apply bool_decide_eq_true in Eh as [k Hk].
  assert (k ∈ merge_sort key_le (remove_dups (omap (group_key_of cols) l))) as Hin.
  { rewrite merge_sort_Permutation. apply elem_of_remove_dups, list_elem_of_In, In_omap.
    eauto. }
  unfold groupby in Hg. apply fmap_nil_inv in Hg. rewrite Hg in Hin.
  by apply not_elem_of_nil in Hin.
Qed.

(** X9. On a table of well-formed calendar dates that passes the schema
    check, the "no rows" fallback error is returned exactly when there is a
    valid record and every valid record has a null grouping value. *)
Theorem calendar_dates_fallback (df : DataFrame) (rule_name : string) :
  missing_cols df = [] ->
  (forall r, In r (records df) -> wf_task r /\ date_only r) ->
  calculate_approved_budget df rule_name = ([], Some MSG_NO_ROWS)
  <-> (exists r, In r (records df) /\ valid_mask r = true)
      /\ (forall r, In r (records df) -> valid_mask r = true ->
                    null_key (grouping_cols df) r).
Proof.
  intros Hm Hrec.
  assert ((forall r, In r (records df) -> valid_mask r = true ->
                     null_key (grouping_cols df) r)
          <-> groupby (List.filter valid_mask (records df)) (grouping_cols df) = []) as Hnull.
  { rewrite groupby_nil_iff. split.
    - intros H r Hr. apply filter_In in Hr as [? ?]. by apply H.
    - intros H r Hr Hv. apply H. by apply filter_In. }
  rewrite Hnull. split.
  - intros Hres.
    destruct (decide (groupby (List.filter valid_mask (records df)) (grouping_cols df) = []))
      as [Hg|Hg].
    + split; [|done]. unfold calculate_approved_budget in Hres. rewrite Hm in Hres.
      destruct (List.filter valid_mask (records df)) as [|r0 w] eqn:E.
      * injection Hres as Hres. by destruct messages_distinct.
      * exists r0. apply filter_In. rewrite E. by left.
    + destruct (date_table_has_rows df rule_name Hm Hrec Hg) as (row & rows & Hr).
      rewrite Hr in Hres. discriminate.
  - intros [(r & Hr & Hv) Hg]. unfold calculate_approved_budget. rewrite Hm, Hg.
    destruct (List.filter valid_mask (records df)) as [|r0 w] eqn:E; [|done].
    assert (In r (List.filter valid_mask (records df))) as Hin by (by apply filter_In).
    rewrite E in Hin. destruct Hin.
Qed.

Lemma calendar_dates_fallback_witness :
  missing_cols no_section_df = []
  /\ (forall r, In r (records no_section_df) -> wf_task r /\ date_only r)
  /\ (calculate_approved_budget no_section_df "default" = ([], Some MSG_NO_ROWS)
      <-> (exists r, In r (records no_section_df) /\ valid_mask r = true)
          /\ (forall r, In r (records no_section_df) -> valid_mask r = true ->
                        null_key (grouping_cols no_section_df) r)).
Proof.
  assert (missing_cols no_section_df = []) as H1 by reflexivity.
  assert (forall r, In r (records no_section_df) -> wf_task r /\ date_only r) as H2.
  { intros r [<-|[]]. split; split; intros t [= <-]; vm_compute; intuition discriminate. }
  split; [exact H1|]. split; [exact H2|].
  exact (calendar_dates_fallback no_section_df "default" H1 H2).
Defined.

(** ** A group of one task *)

Lemma flat_map_singletons {A B} (f : A -> list B) (g : A -> B) (l : list A) :
  (forall x, In x l -> f x = [g x]) -> flat_map f l = map g l.
Proof.
  induction l as [|x l IH]; intros H; [done|]. cbn [flat_map map].
  rewrite (H x) by (by left). rewrite IH; [done|]. intros y Hy. apply H. by right.
Qed.

Lemma single_task_bounds r s e :
  plan_start r = Some s -> plan_end r = Some e ->
  min_start [r] = Some s /\ max_end [r] = Some e.
Proof. intros Hs He. unfold min_start, max_end. cbn. by rewrite Hs, He. Qed.

(** Every month of the sequence of a single valid task is a month in which
    the task is active. *)
Lemma single_task_active r m :
  valid_mask r = true -> wf_task r -> In m (group_months [r]) -> is_active m r = true.
Proof.
  intros Hv [Ws We] Hm.
  destruct (valid_mask_fields r Hv) as (s & e & b & Hs & He & Hb & Hp & Hle).
  destruct (single_task_bounds r s e Hs He) as [Hlo Hhi].
  specialize (Ws s Hs). specialize (We e He).
  unfold group_months in Hm. rewrite Hlo, Hhi in Hm.
  rewrite generate_months_spec in Hm by (by apply wf_timestamp_month).
  apply list_elem_of_In, list_elem_of_fmap in Hm as (i & -> & Hi).
  apply elem_of_seqZ in Hi.
  assert (wf_period (period_of_index i)) as Wm.
  { unfold wf_period, period_of_index. simpl.
    pose proof (Z.mod_pos_bound (i - 1) 12). lia. }
  unfold is_active. rewrite Hs, He. simpl.
  apply andb_true_iff. rewrite ts_leb_end_time, ts_leb_start_time by done.
  rewrite month_index_period_of_index.
  unfold loop_count in Hi. destruct (Z.leb_spec (nanos s) (nanos e)); lia.
Qed.

(** X10. A group that consists of one valid task emits one row for every
    month of its period sequence, in order, and the baseline of every one of
    them is the task's whole budget: the row of the month at position [i]
    holds that budget and, as the allocated amount, the budget times the
    share of position [i]. *)
Theorem single_task_rows (rule : Rule) (rule_name : string) (cols group_key : list string)
    (r : Task) (b : Qc) :
  valid_mask r = true -> wf_task r -> budget_plan r = Some b ->
  (forall m, In m (group_months [r]) -> total_budget [r] m = b)
  /\ process_group rule rule_name cols (group_key, [r])
     = map (fun im =>
              approved_row cols group_key rule_name im.2
                (b * month_percent rule (length (group_months [r])) im.1)%Qc b)
           (enumerate (group_months [r])).
Proof.
  intros Hv Hw Hb.
  assert (forall m, In m (group_months [r]) -> total_budget [r] m = b) as Hall.
  { intros m Hm. unfold total_budget, active_tasks. cbn [List.filter].
    rewrite (single_task_active r m Hv Hw Hm).
    unfold sum_budget. cbn. rewrite Hb. cbn. ring. }
  assert (b <> 0%Qc) as Hb0.
  { destruct (valid_mask_fields r Hv) as (s & e & b' & _ & _ & Hb' & Hp & _).
    rewrite Hb in Hb'. injection Hb' as <-.
    intros H0. rewrite H0 in Hp. by apply (Qclt_not_le 0 0). }
  split; [exact Hall|].
  rewrite process_group_spec. apply flat_map_singletons.
  intros [i m] Hin. apply enumerate_In in Hin.
  unfold month_rows_of. cbn [fst snd]. rewrite (Hall m Hin).
  by rewrite bool_decide_eq_false_2.
Qed.

Lemma single_task_rows_witness :
  valid_mask quarter_task = true /\ wf_task quarter_task
  /\ budget_plan quarter_task = Some (amount 100000)
  /\ (forall m, In m (group_months [quarter_task]) ->
                total_budget [quarter_task] m = amount 100000)
  /\ process_group default_rule "default" key_columns (pst_key, [quarter_task])
     = map (fun im =>
              approved_row key_columns pst_key "default" im.2
                (amount 100000
                 * month_percent default_rule (length (group_months [quarter_task])) im.1)%Qc
                (amount 100000))
           (enumerate (group_months [quarter_task])).
Proof.
  assert (valid_mask quarter_task = true) as H1 by reflexivity.
  assert (wf_task quarter_task) as H2.
  { split; intros t [= <-]; vm_compute; intuition discriminate. }
  assert (budget_plan quarter_task = Some (amount 100000)) as H3 by reflexivity.
  split; [exact H1|]. split; [exact H2|]. split; [exact H3|].
  exact (single_task_rows default_rule "default" key_columns pst_key
           quarter_task (amount 100000) H1 H2 H3).
Defined.

(** ** Group values in the rows *)

Lemma process_group_rows_key rule rn cols k g row :
  In row (process_group rule rn cols (k, g)) ->
  exists m a t, row = approved_row cols k rn m a t.
Proof.
  rewrite process_group_spec, in_flat_map.
  intros ([i m] & _ & H). unfold month_rows_of in H.
  case_bool_decide; [done|]. destruct H as [<-|[]]. repeat eexists.
Qed.

(** X11. A row emitted for a group carries, under every grouping column the
    table has, the value every member of the group holds in that column;
    columns the table does not have are absent from the row. *)
Theorem rows_carry_group_values (df : DataFrame) (rule : Rule) (rule_name : string)
    (k : list string) (g : list Task) (r : Task) (row : OutRow) :
  In (k, g) (groupby (List.filter valid_mask (records df)) (grouping_cols df)) ->
  In r g ->
  In row (process_group rule rule_name (grouping_cols df) (k, g)) ->
  row_get "project name" row
    = (if has_column df "project name" then CStr <$> project_name r else None)
  /\ row_get "section" row
     = (if has_column df "section" then CStr <$> section r else None)
  /\ row_get "task name" row
     = (if has_column df "task name" then CStr <$> task_name r else None)
  /\ row_get "_group" row = None.
Proof.
  intros Hg Hr Hrow.
  destruct (groupby_member _ _ _ _ _ Hg Hr) as [_ Hk].
  apply process_group_rows_key in Hrow as (m0 & a0 & t0 & ->).
  revert Hk. unfold grouping_cols, group_key_of.
  destruct (has_column df "project name"), (has_column df "section"),
    (has_column df "task name"); cbn;
    destruct (project_name r), (section r), (task_name r); cbn;
    intros [= <-]; repeat split; vm_compute; reflexivity.
Qed.

Lemma rows_carry_group_values_witness :
  In (pst_key, [quarter_task])
     (groupby (List.filter valid_mask (records quarter_df)) (grouping_cols quarter_df))
  /\ In quarter_task [quarter_task]
  /\ In quarter_feb_row
        (process_group default_rule "default" (grouping_cols quarter_df)
           (pst_key, [quarter_task]))
  /\ row_get "project name" quarter_feb_row
     = (if has_column quarter_df "project name"
        then CStr <$> project_name quarter_task else None).
Proof.
  assert (In (pst_key, [quarter_task])
             (groupby (List.filter valid_mask (records quarter_df))
                (grouping_cols quarter_df))) as H1 by (vm_compute; left; reflexivity).
  assert (In quarter_task [quarter_task]) as H2 by (by left).
  assert (In quarter_feb_row
             (process_group default_rule "default" (grouping_cols quarter_df)
                (pst_key, [quarter_task]))) as H3 by (vm_compute; right; left; reflexivity).
  split; [exact H1|]. split; [exact H2|]. split; [exact H3|].
  exact (proj1 (rows_carry_group_values quarter_df default_rule "default" pst_key
                  [quarter_task] quarter_task quarter_feb_row H1 H2 H3)).
Defined.

(** ** Tables without grouping columns *)

Lemma remove_dups_constant {A} `{EqDecision A} (x : A) (l : list A) :
  l <> [] -> (forall y, y ∈ l -> y = x) -> remove_dups l = [x].
Proof.
  intros Hne Hall.
  pose proof (NoDup_remove_dups l) as Hnd.
  assert (forall y, y ∈ remove_dups l -> y = x) as Hall'.
  { intros y Hy. apply Hall. by apply elem_of_remove_dups. }
  destruct (remove_dups l) as [|y [|z l']] eqn:E.
  - destruct l as [|y l]; [done|].
    assert (y ∈ remove_dups (y :: l)) as Hy by (apply elem_of_remove_dups; by left).
    rewrite E in Hy. by apply not_elem_of_nil in Hy.
  - f_equal. apply Hall'. by left.
  - exfalso. apply NoDup_cons in Hnd as [Hnin _]. apply Hnin.
    rewrite (Hall' y) by (by left). rewrite (Hall' z) by (right; by left). by left.
Qed.

Lemma filter_all_true {A} (f : A -> bool) l :
  (forall a, In a l -> f a = true) -> List.filter f l = l.
Proof.
  induction l as [|a l IH]; intros H; simpl; [done|].
  rewrite H by (by left). f_equal. apply IH. intros; apply H; by right.
Qed.

(** X12. When the table has none of the three grouping columns, all valid
    records form one group, and the rows carry exactly the four labels
    month, approved budget, budget plan and rule_name. *)
Theorem no_grouping_columns_one_group (df : DataFrame) (rule_name : string) :
  has_column df "project name" = false ->
  has_column df "section" = false ->
  has_column df "task name" = false ->
  (List.filter valid_mask (records df) <> [] ->
   groupby (List.filter valid_mask (records df)) (grouping_cols df)
   = [(["all"], List.filter valid_mask (records df))])
  /\ forall row, In row (calculate_approved_budget df rule_name).1 ->
                 map fst row = ["month"; "approved budget"; "budget plan"; "rule_name"].
Proof.
  intros H1 H2 H3.
  assert (grouping_cols df = ["_group"]) as Hc.
  { unfold grouping_cols. by rewrite H1, H2, H3. }
  rewrite Hc. split.
  - intros Hne. unfold groupby.
    set (w := List.filter valid_mask (records df)) in *.
    assert (forall r, group_key_of ["_group"] r = Some ["all"]) as Hk by done.
    rewrite (remove_dups_constant ["all"]).
    + replace (merge_sort key_le [["all"]]) with [["all"]] by reflexivity.
      cbn [map]. f_equal. f_equal. apply filter_all_true. intros r _.
      apply bool_decide_eq_true. apply Hk.
    + destruct w as [|r0 w']; [done|]. by rewrite omap_cons, Hk.
    + intros y Hy. apply list_elem_of_omap in Hy as (r & _ & Hy).
      rewrite Hk in Hy. by injection Hy.
  - intros row Hrow. apply engine_rows_cols in Hrow as (k & rn & m & a & t & ->).
    by rewrite Hc.
Qed.

Lemma no_grouping_columns_one_group_witness :
  has_column no_keys_df "project name" = false
  /\ has_column no_keys_df "section" = false
  /\ has_column no_keys_df "task name" = false
  /\ (List.filter valid_mask (records no_keys_df) <> [] ->
      groupby (List.filter valid_mask (records no_keys_df)) (grouping_cols no_keys_df)
      = [(["all"], List.filter valid_mask (records no_keys_df))]).
Proof.
  assert (has_column no_keys_df "project name" = false) as H1 by reflexivity.
  assert (has_column no_keys_df "section" = false) as H2 by reflexivity.
  assert (has_column no_keys_df "task name" = false) as H3 by reflexivity.
  split; [exact H1|]. split; [exact H2|]. split; [exact H3|].
  exact (proj1 (no_grouping_columns_one_group no_keys_df "default" H1 H2 H3)).
Defined.

(** ** Order and partition of the groups *)

Lemma string_compare_refl x : String.compare x x = Eq.
Proof.
  pose proof (String.compare_antisym x x) as H.
  destruct (String.compare x x); [done|discriminate|discriminate].
Qed.

Lemma key_compare_refl a : key_compare a a = Eq.
Proof.
  induction a as [|x a IH]; simpl; [done|]. by rewrite string_compare_refl.
Qed.

Lemma key_compare_eq a : forall b, key_compare a b = Eq -> a = b.
Proof.
  induction a as [|x a IH]; intros [|y b]; simpl; try done.
  destruct (String.compare x y) eqn:E; try done.
  apply String.compare_eq_iff in E as ->. intros H. f_equal. by apply IH.
Qed.

Lemma key_compare_antisym a : forall b, key_compare a b = CompOpp (key_compare b a).
Proof.
  induction a as [|x a IH]; intros [|y b]; simpl; try done.
  rewrite (String.compare_antisym y x).
  destruct (String.compare x y); simpl; [apply IH|done|done].
Qed.

Lemma string_compare_lt_trans x y z :
  String.compare x y = Lt -> String.compare y z = Lt -> String.compare x z = Lt.
Proof.
  intros H1 H2.
  apply OrderedTypeEx.String_as_OT.cmp_lt in H1, H2.
  apply OrderedTypeEx.String_as_OT.cmp_lt.
  by apply (OrderedTypeEx.String_as_OT.lt_trans x y z).
Qed.

Lemma key_compare_lt_trans a : forall b c,
  key_compare a b = Lt -> key_compare b c = Lt -> key_compare a c = Lt.
Proof.
  induction a as [|x a IH]; intros [|y b] [|z c]; simpl; try done.
  destruct (String.compare x y) eqn:Exy; try done.
  - apply String.compare_eq_iff in Exy as ->.
    destruct (String.compare y z); try done. apply IH.
  - intros _. destruct (String.compare y z) eqn:Eyz; try done.
    + apply String.compare_eq_iff in Eyz as <-. by rewrite Exy.
    + by rewrite (string_compare_lt_trans x y z).
Qed.

#[global] Instance key_le_total : Total key_le.
Proof.
  intros a b. unfold key_le. rewrite (key_compare_antisym b a).
  destruct (key_compare a b); simpl; auto.
Qed.

#[global] Instance key_le_trans : Transitive key_le.
Proof.
  intros a b c. unfold key_le. intros Hab Hbc.
  destruct (key_compare a b) eqn:Eab; [| |done].
  - by apply key_compare_eq in Eab as ->.
  - destruct (key_compare b c) eqn:Ebc; [| |done].
    + apply key_compare_eq in Ebc as <-. by rewrite Eab.
    + by rewrite (key_compare_lt_trans a b c).
Qed.

Lemma groupby_keys cols l :
  (groupby l cols).*1 = merge_sort key_le (remove_dups (omap (group_key_of cols) l)).
Proof.
  unfold groupby. rewrite <- list_fmap_compose. apply list_fmap_id.
Qed.

Lemma groupby_keys_NoDup cols l : NoDup (groupby l cols).*1.
Proof.
  rewrite groupby_keys, merge_sort_Permutation. apply NoDup_remove_dups.
Qed.

(** X13. The groups come in strictly increasing key order (column by
    column, strings by code point): no key occurs twice. *)
Theorem groups_in_key_order (cols : list string) (l : list Task)
    (i j : nat) (a b : list string) :
  (i < j)%nat ->
  (groupby l cols).*1 !! i = Some a ->
  (groupby l cols).*1 !! j = Some b ->
  key_lt a b.
Proof.
  intros Hij Ha Hb.
  pose proof (groupby_keys_NoDup cols l) as Hnd.
  assert (StronglySorted key_le (groupby l cols).*1) as Hs.
  { rewrite groupby_keys. apply StronglySorted_merge_sort; apply _. }
  assert (key_le a b) as Hle.
  { revert i j a b Hij Ha Hb.
    induction Hs as [|x ks Hs IH Hall]; intros i j a b Hij Ha Hb; [done|].
    destruct i as [|i], j as [|j]; try lia.
    - injection Ha as <-. simpl in Hb.
      rewrite Forall_forall in Hall. apply Hall. by eapply list_elem_of_lookup_2.
    - simpl in Ha, Hb. apply NoDup_cons in Hnd as [_ Hnd].
      apply (IH Hnd i j); [lia|done|done]. }
  unfold key_lt. unfold key_le in Hle.
  destruct (key_compare a b) eqn:E; [|done|done].
  apply key_compare_eq in E as ->.
  pose proof (NoDup_lookup _ _ _ _ Hnd Ha Hb). lia.
Qed.

Lemma groups_in_key_order_witness :
  (0 < 1)%nat
  /\ (groupby [winter_task; other_project_task] key_columns).*1 !! 0%nat = Some ["A"; "S"; "T"]
  /\ (groupby [winter_task; other_project_task] key_columns).*1 !! 1%nat = Some ["P"; "S"; "T"]
  /\ key_lt ["A"; "S"; "T"] ["P"; "S"; "T"].
Proof.
  assert ((groupby [winter_task; other_project_task] key_columns).*1 !! 0%nat
          = Some ["A"; "S"; "T"]) as H1 by reflexivity.
  assert ((groupby [winter_task; other_project_task] key_columns).*1 !! 1%nat
          = Some ["P"; "S"; "T"]) as H2 by reflexivity.
  split; [lia|]. split; [exact H1|]. split; [exact H2|].
  exact (groups_in_key_order key_columns [winter_task; other_project_task] 0 1 _ _
           ltac:(lia) H1 H2).
Defined.

(** *** Sums over a partition by key *)

Lemma sum_zero {K} (keys : list K) : foldr Qcplus 0%Qc ((fun _ => 0%Qc) <$> keys) = 0%Qc.
Proof. induction keys as [|k keys IH]; cbn; [done|]. rewrite IH. ring. Qed.

Lemma sum_pointwise {K} (f g : K -> Qc) (keys : list K) :
  (forall k, k ∈ keys -> f k = g k) ->
  foldr Qcplus 0%Qc (f <$> keys) = foldr Qcplus 0%Qc (g <$> keys).
Proof.
  induction keys as [|k keys IH]; intros H; cbn; [done|].
  rewrite (H k) by (by left). f_equal. apply IH. intros; apply H; by right.
Qed.

(** Adding [c] at one key of a duplicate-free list adds [c] to the sum. *)
Lemma sum_add_at {K} `{EqDecision K} (g : K -> Qc) (c : Qc) (k0 : K) (keys : list K) :
  NoDup keys -> k0 ∈ keys ->
  foldr Qcplus 0%Qc ((fun k => if decide (k = k0) then (c + g k)%Qc else g k) <$> keys)
  = (c + foldr Qcplus 0%Qc (g <$> keys))%Qc.
Proof.
  induction keys as [|k keys IH]; intros Hnd Hin; [by apply not_elem_of_nil in Hin|].
  apply NoDup_cons in Hnd as [Hnin Hnd]. cbn.
  destruct (decide (k = k0)) as [->|Hne].
  - rewrite (sum_pointwise _ g keys); [ring|].
    intros k Hk. rewrite decide_False; [done|]. by intros ->.
  - apply elem_of_cons in Hin as [->|Hin]; [done|].
    change (list_fmap K Qc ?f keys) with (f <$> keys).
    rewrite IH by done. ring.
Qed.

(** Summing key by key over a duplicate-free list of keys that covers the
    keys of [l] is summing over the elements of [l] that have a key. *)
Lemma partition_sum {A K} `{EqDecision K} (key : A -> option K) (f : A -> Qc)
    (keys : list K) (l : list A) :
  NoDup keys ->
  (forall a k, In a l -> key a = Some k -> k ∈ keys) ->
  foldr Qcplus 0%Qc
    ((fun k => foldr Qcplus 0%Qc
                 (f <$> List.filter (fun a => bool_decide (key a = Some k)) l)) <$> keys)
  = foldr Qcplus 0%Qc (f <$> List.filter (fun a => bool_decide (is_Some (key a))) l).
Proof.
  intros Hnd. induction l as [|a l IH]; intros Hcov.
  - cbn. apply sum_zero.
  - assert (forall a' k, In a' l -> key a' = Some k -> k ∈ keys) as Hcov'
      by (intros; eapply Hcov; [by right|done]).
    specialize (IH Hcov'). cbn [List.filter].
    destruct (key a) as [k0|] eqn:Ek.
    + rewrite bool_decide_eq_true_2 by eauto. cbn [fmap list_fmap foldr].
      change (list_fmap A Qc f ?x) with (f <$> x). rewrite <- IH.
      rewrite <- (sum_add_at _ (f a) k0 keys Hnd) by (eapply Hcov; [by left|done]).
      apply sum_pointwise. intros k Hk.
      destruct (decide (k = k0)) as [->|Hne].
      * by rewrite bool_decide_eq_true_2.
      * rewrite bool_decide_eq_false_2; [done|]. by intros [= ->].
    + rewrite bool_decide_eq_false_2 by (by intros [? ?]). rewrite <- IH.
      apply sum_pointwise. intros k Hk. by rewrite bool_decide_eq_false_2.
Qed.

Lemma sum_budget_omap l :
  sum_budget l = foldr Qcplus 0%Qc ((fun r => default 0%Qc (budget_plan r)) <$> l).
Proof.
  unfold sum_budget. induction l as [|r l IH]; [done|].
  rewrite omap_cons, fmap_cons. cbn [foldr]. rewrite <- IH.
  destruct (budget_plan r); cbn; [done|ring].
Qed.

(** X14. Grouping partitions the records that have a complete key: a group
    holds exactly the records with its key, every such record is in the group
    of its key and in no other, no group is empty, and the budgets of the
    groups add up to the budget of the records with a complete key. *)
Theorem groupby_partitions (cols : list string) (l : list Task) :
  (forall k g r, In (k, g) (groupby l cols) ->
                 (In r g <-> In r l /\ group_key_of cols r = Some k))
  /\ (forall r k, In r l -> group_key_of cols r = Some k ->
                  exists g, In (k, g) (groupby l cols) /\ In r g
                            /\ forall k' g', In (k', g') (groupby l cols) -> In r g' -> k' = k)
  /\ (forall k g, In (k, g) (groupby l cols) -> g <> [])
  /\ foldr Qcplus 0%Qc ((fun kg => sum_budget kg.2) <$> groupby l cols)
     = sum_budget (keyed_records cols l).
Proof.
  split; [|split; [|split]].
  - intros k g r Hg. unfold groupby in Hg. apply in_map_iff in Hg as (k' & [= <- <-] & _).
    by rewrite filter_In, bool_decide_eq_true.
  - intros r k Hr Hk.
    exists (List.filter (fun r' => bool_decide (group_key_of cols r' = Some k)) l).
    split; [|split].
    + unfold groupby. apply in_map_iff. exists k. split; [done|].
      apply list_elem_of_In. rewrite merge_sort_Permutation.
      apply elem_of_remove_dups, list_elem_of_In, In_omap. eauto.
    + apply filter_In. split; [done|]. by apply bool_decide_eq_true.
    + intros k' g' Hg' Hr'. destruct (groupby_member _ _ _ _ _ Hg' Hr') as [_ Hk'].
      congruence.
  - intros k g Hg ->. by destruct (groupby_group_nonempty _ _ _ _ Hg).
  - unfold groupby, keyed_records, has_key. rewrite <- list_fmap_compose.
    rewrite !sum_budget_omap.
    rewrite <- (partition_sum (group_key_of cols) _
                  (merge_sort key_le (remove_dups (omap (group_key_of cols) l))) l).
    + apply sum_pointwise. intros k _. cbn. apply sum_budget_omap.
    + rewrite merge_sort_Permutation. apply NoDup_remove_dups.
    + intros a k Ha Hk. rewrite merge_sort_Permutation.
      apply elem_of_remove_dups, list_elem_of_In, In_omap. eauto.
Qed.

(** ** Forecast table *)

(** X15. The forecast table is the engine's table of the active dataset
    with one more column: the error is the same, there are as many rows, and
    each row keeps all labels and values of the engine's row, followed by
    ["forecast budget"] holding the value of ["approved budget"]. *)
Theorem forecast_appends_one_column (df : DataFrame) (edited_data : option DataFrame)
    (rule_name : string) :
  (calculate_forecast_budget df edited_data rule_name).2
  = (calculate_approved_budget (default df edited_data) rule_name).2
  /\ length (calculate_forecast_budget df edited_data rule_name).1
     = length (calculate_approved_budget (default df edited_data) rule_name).1
  /\ Forall2 (fun approved forecast =>
                exists x, row_get "approved budget" approved = Some (CNum x)
                          /\ forecast = approved ++ [("forecast budget", CNum x)])
             (calculate_approved_budget (default df edited_data) rule_name).1
             (calculate_forecast_budget df edited_data rule_name).1.
Proof.
  destruct (forecast_same_allocation df edited_data rule_name) as [He Hrows].
  split; [exact He|]. split; [|exact Hrows].
  symmetry. by eapply Forall2_length.
Qed.

(** ** Monthly table of a dashboard *)

#[global] Instance period_le_total : Total period_le.
Proof. intros p q. unfold period_le. lia. Qed.

#[global] Instance period_le_trans : Transitive period_le.
Proof. intros p q r. unfold period_le. lia. Qed.

#[global] Instance entry_le_total : Total entry_le.
Proof. intros a b. unfold entry_le. apply period_le_total. Qed.

#[global] Instance entry_le_trans : Transitive entry_le.
Proof. intros a b c. unfold entry_le. apply period_le_trans. Qed.

Lemma sum_perm (l l' : list Qc) :
  l ≡ₚ l' -> foldr Qcplus 0%Qc l = foldr Qcplus 0%Qc l'.
Proof.
  induction 1 as [|x l l' _ IH|x y l|l l' l'' _ IH1 _ IH2]; cbn.
  - done.
  - by rewrite IH.
  - ring.
  - by rewrite IH1.
Qed.

Lemma column_sum_fmap label rows :
  column_sum label rows
  = foldr Qcplus 0%Qc ((fun row => default 0%Qc (row_num label row)) <$> rows).
Proof.
  unfold column_sum. induction rows as [|r l IH]; [done|].
  rewrite omap_cons, fmap_cons. cbn [foldr]. rewrite <- IH.
  destruct (row_num label r); cbn; [done|ring].
Qed.

Lemma group_by_month_months label rows :
  (group_by_month label rows).*1.*1
  = merge_sort period_le (remove_dups (omap row_month rows)).
Proof.
  unfold group_by_month. rewrite <- !list_fmap_compose. apply list_fmap_id.
Qed.

Lemma monthly_summary_perm label rows :
  monthly_summary label rows ≡ₚ group_by_month label rows.
Proof. apply merge_sort_Permutation. Qed.

(** The sums of a grouping by month are the sums over the rows that have a
    month. *)
Lemma group_by_month_sum label' rows :
  foldr Qcplus 0%Qc
    ((fun p => column_sum label' (rows_of_month p rows))
       <$> merge_sort period_le (remove_dups (omap row_month rows)))
  = column_sum label'
      (List.filter (fun row => bool_decide (is_Some (row_month row))) rows).
Proof.
  rewrite column_sum_fmap.
  rewrite <- (partition_sum row_month _
                (merge_sort period_le (remove_dups (omap row_month rows))) rows).
  - apply sum_pointwise. intros p _. apply column_sum_fmap.
  - rewrite merge_sort_Permutation. apply NoDup_remove_dups.
  - intros a k Ha Hk. rewrite merge_sort_Permutation.
    apply elem_of_remove_dups, list_elem_of_omap. exists a.
    split; [by apply list_elem_of_In|done].
Qed.

Lemma engine_rows_have_month df rn :
  List.filter (fun row => bool_decide (is_Some (row_month row)))
              (calculate_approved_budget df rn).1
  = (calculate_approved_budget df rn).1.
Proof.
  apply filter_all_true. intros row Hrow.
  apply engine_rows in Hrow as (cols & k & rn' & m & a & t & ->).
  apply bool_decide_eq_true. by exists m.
Qed.

(** X16. The monthly table of the approved-budget dashboard has one entry
    per month of the engine's rows, in chronological order, each with the
    sums of the rows of its month; its allocated amounts and its baselines
    add up to those of the engine's table. *)
Theorem monthly_summary_of_engine (df : DataFrame) (rule_name : string) :
  NoDup (monthly_summary "approved budget" (calculate_approved_budget df rule_name).1).*1.*1
  /\ StronglySorted entry_le
       (monthly_summary "approved budget" (calculate_approved_budget df rule_name).1)
  /\ (forall p a t,
        In (p, a, t)
           (monthly_summary "approved budget" (calculate_approved_budget df rule_name).1) ->
        rows_of_month p (calculate_approved_budget df rule_name).1 <> []
        /\ a = column_sum "approved budget"
                 (rows_of_month p (calculate_approved_budget df rule_name).1)
        /\ t = column_sum "budget plan"
                 (rows_of_month p (calculate_approved_budget df rule_name).1))
  /\ foldr Qcplus 0%Qc
       (monthly_summary "approved budget" (calculate_approved_budget df rule_name).1).*1.*2
     = column_sum "approved budget" (calculate_approved_budget df rule_name).1
  /\ foldr Qcplus 0%Qc
       (monthly_summary "approved budget" (calculate_approved_budget df rule_name).1).*2
     = column_sum "budget plan" (calculate_approved_budget df rule_name).1.
Proof.
  set (rows := (calculate_approved_budget df rule_name).1).
  pose proof (monthly_summary_perm "approved budget" rows) as Hperm.
  split; [|split; [|split; [|split]]].
  - rewrite Hperm, group_by_month_months, merge_sort_Permutation.
    apply NoDup_remove_dups.
  - apply StronglySorted_merge_sort; apply _.
  - intros p a t Hin. apply list_elem_of_In in Hin. rewrite Hperm in Hin.
    apply list_elem_of_In, in_map_iff in Hin as (p' & [= <- <- <-] & Hp).
    split; [|done].
    apply list_elem_of_In in Hp. rewrite merge_sort_Permutation in Hp.
    apply elem_of_remove_dups, list_elem_of_omap in Hp as (row & Hrow & Hm).
    intros Hnil.
    assert (In row (rows_of_month p' rows)) as Hx.
    { apply filter_In. split; [by apply list_elem_of_In|by apply bool_decide_eq_true]. }
    rewrite Hnil in Hx. destruct Hx.
  - rewrite (sum_perm _ (group_by_month "approved budget" rows).*1.*2)
      by (by rewrite Hperm).
    unfold group_by_month. rewrite <- !list_fmap_compose.
    transitivity (column_sum "approved budget"
                    (List.filter (fun row => bool_decide (is_Some (row_month row))) rows)).
    + exact (group_by_month_sum "approved budget" rows).
    + unfold rows. by rewrite engine_rows_have_month.
  - rewrite (sum_perm _ (group_by_month "approved budget" rows).*2)
      by (by rewrite Hperm).
    unfold group_by_month. rewrite <- !list_fmap_compose.
    transitivity (column_sum "budget plan"
                    (List.filter (fun row => bool_decide (is_Some (row_month row))) rows)).
    + exact (group_by_month_sum "budget plan" rows).
    + unfold rows. by rewrite engine_rows_have_month.
Qed.

(** ** Detail table of the approved-budget dashboard *)

Lemma approved_row_labels cols k rn m a t :
  map fst (approved_row cols k rn m a t)
  = ["month"; "approved budget"; "budget plan"; "rule_name"]
    ++ List.filter (fun col => negb (String.eqb col "_group")) cols.
Proof.
  unfold approved_row. rewrite map_app, map_map. cbn [map fst app].
  by rewrite map_id.
Qed.

(** The columns of the engine's table. *)
Lemma engine_out_columns df rn row rows l :
  calculate_approved_budget df rn = (row :: rows, None) ->
  l ∈ out_columns (row :: rows)
  <-> l ∈ ["month"; "approved budget"; "budget plan"; "rule_name"]
          ++ List.filter (fun col => negb (String.eqb col "_group")) (grouping_cols df).
Proof.
  intros Hres.
  assert (forall r, In r (row :: rows) ->
            map fst r = ["month"; "approved budget"; "budget plan"; "rule_name"]
                        ++ List.filter (fun col => negb (String.eqb col "_group"))
                             (grouping_cols df)) as Hlab.
  { intros r Hr. replace (row :: rows) with (calculate_approved_budget df rn).1 in Hr
      by (by rewrite Hres).
    apply engine_rows_cols in Hr as (k & rn' & m & a & t & ->).
    apply approved_row_labels. }
  unfold out_columns. rewrite elem_of_remove_dups. split.
  - intros Hl. apply list_elem_of_In, in_concat in Hl as (ls & Hls & Hin).
    apply in_map_iff in Hls as (r & <- & Hr). rewrite (Hlab r Hr) in Hin.
    by apply list_elem_of_In.
  - intros Hl. apply list_elem_of_In, in_concat. exists (map fst row). split.
    + apply in_map. by left.
    + rewrite (Hlab row) by (by left). by apply list_elem_of_In.
Qed.

(** X17. When the engine returns rows, the detail table of the
    approved-budget dashboard can be built exactly when the input table has
    all three grouping columns; otherwise the column selection raises. *)
Theorem detail_table_needs_grouping_columns (df : DataFrame) (rule_name : string)
    (rows : list OutRow) :
  calculate_approved_budget df rule_name = (rows, None) ->
  is_Some (select_columns detail_columns rows)
  <-> has_column df "project name" = true
      /\ has_column df "section" = true
      /\ has_column df "task name" = true.
Proof.
  intros Hres.
  destruct (engine_outcome df rule_name) as [(e & He & _)|(row & rows' & Hr)];
    [congruence|].
  assert (rows = row :: rows') as -> by congruence.
  unfold select_columns. 
  assert (Forall (fun l => l ∈ out_columns (row :: rows')) detail_columns
          <-> has_column df "project name" = true
              /\ has_column df "section" = true
              /\ has_column df "task name" = true) as Hiff.
  { unfold detail_columns. rewrite !Forall_cons, Forall_nil.
    rewrite !(engine_out_columns df rule_name row rows' _ Hr).
    unfold grouping_cols.
    destruct (has_column df "project name"), (has_column df "section"),
      (has_column df "task name"); cbn; set_solver. }
  rewrite <- Hiff. case_bool_decide; split; try done.
Qed.

Lemma detail_table_needs_grouping_columns_witness :
  calculate_approved_budget no_keys_df "default"
  = ((calculate_approved_budget no_keys_df "default").1, None)
  /\ (is_Some (select_columns detail_columns (calculate_approved_budget no_keys_df "default").1)
      <-> has_column no_keys_df "project name" = true
          /\ has_column no_keys_df "section" = true
          /\ has_column no_keys_df "task name" = true).
Proof.
  assert (calculate_approved_budget no_keys_df "default"
          = ((calculate_approved_budget no_keys_df "default").1, None)) as H
    by reflexivity.
  split; [exact H|].
  exact (detail_table_needs_grouping_columns no_keys_df "default" _ H).
Defined.

(** ** Month labels *)

Lemma format_int_inj a b : format_int a = format_int b -> a = b.
Proof.
  unfold format_int. intros H. apply DecimalZ.to_int_inj.
  assert (forall z, DecimalString.NilZero.int_of_string
                      (DecimalString.NilZero.string_of_int (Z.to_int z))
                    = Some (Z.to_int z)) as Hisi.
  { intros z. apply DecimalString.NilZero.isi; destruct z; simpl; try done.
    - intros [= Hp]. by destruct (DecimalPos.Unsigned.to_uint_nonnil p).
    - intros [= Hp]. by destruct (DecimalPos.Unsigned.to_uint_nonnil p). }
  pose proof (Hisi a) as Ha. rewrite H, Hisi in Ha. by injection Ha.
Qed.

(** The names of the twelve months, followed by a space and anything, are
    pairwise different. *)
Lemma month_name_inj (m1 m2 : Z) (s1 s2 : string) :
  1 <= m1 <= 12 -> 1 <= m2 <= 12 ->
  default "Н/Д" (RUSSIAN_MONTHS !! m1) +:+ " " +:+ s1
  = default "Н/Д" (RUSSIAN_MONTHS !! m2) +:+ " " +:+ s2 ->
  m1 = m2 /\ s1 = s2.
Proof.
  intros H1 H2.
  assert (m1 = 1 \/ m1 = 2 \/ m1 = 3 \/ m1 = 4 \/ m1 = 5 \/ m1 = 6 \/ m1 = 7 \/ m1 = 8
          \/ m1 = 9 \/ m1 = 10 \/ m1 = 11 \/ m1 = 12) as C1 by lia.
  assert (m2 = 1 \/ m2 = 2 \/ m2 = 3 \/ m2 = 4 \/ m2 = 5 \/ m2 = 6 \/ m2 = 7 \/ m2 = 8
          \/ m2 = 9 \/ m2 = 10 \/ m2 = 11 \/ m2 = 12) as C2 by lia.
  clear H1 H2.
  repeat (destruct C1 as [->|C1]); try subst m1;
    repeat (destruct C2 as [->|C2]); try subst m2;
    vm_compute; intros H; split; congruence.
Qed.

(** X18. The label of a calendar month is the Russian month name followed
    by the year; different calendar months have different labels, and none
    has the label of a null cell. *)
Theorem month_labels_distinct (p q : Period) :
  wf_period p -> wf_period q ->
  (format_month_display (Some p) = format_month_display (Some q) -> p = q)
  /\ format_month_display (Some p) <> format_month_display None
  /\ exists name, RUSSIAN_MONTHS !! p.2 = Some name
                  /\ format_month_display (Some p) = name +:+ " " +:+ format_int p.1.
Proof.
  intros Wp Wq. destruct p as [y1 m1], q as [y2 m2].
  unfold wf_period in *. simpl in *. split; [|split].
  - intros H. apply month_name_inj in H as [-> H]; [|done|done].
    by apply format_int_inj in H as ->.
  - assert (m1 = 1 \/ m1 = 2 \/ m1 = 3 \/ m1 = 4 \/ m1 = 5 \/ m1 = 6 \/ m1 = 7 \/ m1 = 8
            \/ m1 = 9 \/ m1 = 10 \/ m1 = 11 \/ m1 = 12) as C1 by lia.
    generalize (format_int y1). intros s.
    repeat (destruct C1 as [->|C1]); try subst m1; vm_compute; congruence.
  - assert (m1 = 1 \/ m1 = 2 \/ m1 = 3 \/ m1 = 4 \/ m1 = 5 \/ m1 = 6 \/ m1 = 7 \/ m1 = 8
            \/ m1 = 9 \/ m1 = 10 \/ m1 = 11 \/ m1 = 12) as C1 by lia.
    repeat (destruct C1 as [->|C1]); try subst m1; eexists; split; reflexivity.
Qed.

Lemma month_labels_distinct_witness :
  wf_period (2025, 3) /\ wf_period (2025, 5)
  /\ (format_month_display (Some (2025, 3)) = format_month_display (Some (2025, 5)) ->
      (2025, 3) = (2025, 5))
  /\ format_month_display (Some (2025, 3)) <> format_month_display None.
Proof.
  assert (wf_period (2025, 3)) as H1 by (vm_compute; intuition discriminate).
  assert (wf_period (2025, 5)) as H2 by (vm_compute; intuition discriminate).
  split; [exact H1|]. split; [exact H2|].
  destruct (month_labels_distinct (2025, 3) (2025, 5) H1 H2) as (Ha & Hb & _).
  split; [exact Ha | exact Hb].
Defined.

Example march_2025_label : format_month_display (Some (2025, 3)) = "Март 2025".
Proof. reflexivity. Qed.

(** ** Edits of the forecast dashboard *)

Lemma add_column_present col cols : col ∈ cols -> add_column col cols = cols.
Proof. intros H. unfold add_column. by rewrite bool_decide_eq_true_2. Qed.

Lemma missing_cols_nil df :
  missing_cols df = [] <->
  "budget plan" ∈ columns df /\ "plan start" ∈ columns df /\ "plan end" ∈ columns df.
Proof.
  unfold missing_cols, required_cols, has_column. cbn [List.filter].
  repeat case_bool_decide; cbn; split; try done; intros (? & ? & ?); done.
Qed.

Lemma updated_data_columns current edited :
  missing_cols current = [] -> columns (updated_data current edited) = columns current.
Proof.
  intros Hm. apply missing_cols_nil in Hm as (Hb & Hs & He).
  unfold updated_data. destruct (_ =? _)%nat; [|done]. simpl.
  rewrite (add_column_present "plan start") by done.
  rewrite (add_column_present "plan end") by done.
  by rewrite (add_column_present "budget plan").
Qed.

Lemma date_to_timestamp_wf d : wf_date d -> wf_timestamp (date_to_timestamp d).
Proof.
  intros [Hm Hd]. unfold wf_timestamp, date_to_timestamp, NANOS_PER_DAY. simpl. lia.
Qed.

Lemma update_row_date_only r e : date_only (update_row r e).
Proof.
  split; intros t; simpl; destruct (edit_start e), (edit_end e); simpl;
    intros [= <-]; done.
Qed.

Lemma update_row_wf r e : wf_edit e -> wf_task (update_row r e).
Proof.
  intros [Hs He]. split; intros t; simpl.
  - destruct (edit_start e) as [d|]; simpl; intros [= <-].
    by apply date_to_timestamp_wf, Hs.
  - destruct (edit_end e) as [d|]; simpl; intros [= <-].
    by apply date_to_timestamp_wf, He.
Qed.

(** X19. An edit table with as many rows as the stored table replaces, row
    by row, the two dates (as midnight timestamps) and the budget, and leaves
    project, section and task name alone, so every updated row holds plain
    calendar dates; an edit table of another length is ignored as a whole. *)
Theorem edits_replace_dates_and_budget (current : DataFrame) (edited : list EditRow) :
  (length (records current) <> length edited -> updated_data current edited = current)
  /\ (length (records current) = length edited ->
      length (records (updated_data current edited)) = length (records current)
      /\ (forall i r e,
            records current !! i = Some r -> edited !! i = Some e ->
            exists r',
              records (updated_data current edited) !! i = Some r'
              /\ project_name r' = project_name r
              /\ section r' = section r
              /\ task_name r' = task_name r
              /\ plan_start r' = date_to_timestamp <$> edit_start e
              /\ plan_end r' = date_to_timestamp <$> edit_end e
              /\ budget_plan r' = edit_budget e)
      /\ forall r', In r' (records (updated_data current edited)) -> date_only r').
Proof.
  unfold updated_data. split.
  - intros Hne. by rewrite (proj2 (Nat.eqb_neq _ _) Hne).
  - intros Heq. rewrite (proj2 (Nat.eqb_eq _ _) Heq). simpl. split; [|split].
    + rewrite length_zip_with. lia.
    + intros i r e Hr He. exists (update_row r e). split; [|done].
      rewrite lookup_zip_with, Hr. simpl. by rewrite He.
    + intros r' Hr'. apply list_elem_of_In, elem_of_lookup_zip_with in Hr'
        as (i & r & e & -> & _ & _).
      apply update_row_date_only.
Qed.

(** X20. Edits do not accumulate: applying a second edit table to the
    result of a first one, both of the length of the stored table, gives what
    the second gives on the original rows. *)
Theorem last_edit_wins (current : DataFrame) (first second : list EditRow) :
  missing_cols current = [] ->
  length (records current) = length first ->
  length (records current) = length second ->
  updated_data (updated_data current first) second = updated_data current second.
Proof.
  intros Hm Hlen Hlen2.
  assert (columns (updated_data current first) = columns current) as Hc
    by (by apply updated_data_columns).
  assert (records (updated_data current first)
          = zip_with update_row (records current) first) as Hr.
  { unfold updated_data. by rewrite (proj2 (Nat.eqb_eq _ _) Hlen). }
  unfold updated_data at 1 3. rewrite Hc, Hr, length_zip_with.
  replace (length (records current) `min` length first)%nat
    with (length (records current)) by lia.
  rewrite (proj2 (Nat.eqb_eq _ _) Hlen2). f_equal.
  apply list_eq. intros i. rewrite !lookup_zip_with.
  destruct (records current !! i) as [r|] eqn:Er; simpl; [|done].
  destruct (first !! i) as [e1|] eqn:E1; simpl.
  - by destruct (second !! i).
  - apply lookup_ge_None in E1. apply lookup_lt_Some in Er. lia.
Qed.

Lemma last_edit_wins_witness :
  missing_cols afternoon_df = []
  /\ length (records afternoon_df) = length (initial_edit_table (records afternoon_df))
  /\ length (records afternoon_df) = length [february_edit]
  /\ updated_data (updated_data afternoon_df (initial_edit_table (records afternoon_df)))
       [february_edit]
     = updated_data afternoon_df [february_edit].
Proof.
  assert (missing_cols afternoon_df = []) as H1 by reflexivity.
  assert (length (records afternoon_df)
          = length (initial_edit_table (records afternoon_df))) as H2 by reflexivity.
  assert (length (records afternoon_df) = length [february_edit]) as H3 by reflexivity.
  split; [exact H1|]. split; [exact H2|]. split; [exact H3|].
  exact (last_edit_wins afternoon_df _ _ H1 H2 H3).
Defined.

Lemma zip_with_map_r {A B C} (f : A -> B -> C) (g : A -> B) (l : list A) :
  zip_with f l (map g l) = map (fun a => f a (g a)) l.
Proof. induction l as [|a l IH]; simpl; [done|]. by rewrite IH. Qed.

(** X21. With the edit table as first built from the stored rows, the
    update only drops the time of day of the two dates: budgets, names and
    calendar days stay as they are; doing it again changes nothing more. *)
Theorem initial_edits_drop_time_of_day (current : DataFrame) :
  missing_cols current = [] ->
  updated_data current (initial_edit_table (records current))
  = {| columns := columns current; records := map drop_time_of_day (records current) |}
  /\ updated_data
       (updated_data current (initial_edit_table (records current)))
       (initial_edit_table
          (records (updated_data current (initial_edit_table (records current)))))
     = updated_data current (initial_edit_table (records current)).
Proof.
  intros Hm.
  assert (forall c, missing_cols c = [] ->
            updated_data c (initial_edit_table (records c))
            = {| columns := columns c; records := map drop_time_of_day (records c) |}) as H.
  { intros c Hc. pose proof (updated_data_columns c (initial_edit_table (records c)) Hc) as Hcol.
    unfold updated_data in *. unfold initial_edit_table in *.
    rewrite length_map, Nat.eqb_refl in *. simpl in Hcol. rewrite Hcol. f_equal.
    rewrite zip_with_map_r. apply map_ext. intros r.
    unfold update_row, drop_time_of_day. simpl.
    by destruct (plan_start r), (plan_end r). }
  split; [by apply H|].
  rewrite (H current Hm). rewrite H by done. simpl. f_equal.
  rewrite map_map. apply map_ext. intros r.
  unfold drop_time_of_day. simpl. by destruct (plan_start r), (plan_end r).
Qed.

Lemma initial_edits_drop_time_of_day_witness :
  missing_cols afternoon_df = []
  /\ updated_data afternoon_df (initial_edit_table (records afternoon_df))
     = {| columns := columns afternoon_df;
          records := map drop_time_of_day (records afternoon_df) |}.
Proof.
  assert (missing_cols afternoon_df = []) as H1 by reflexivity.
  split; [exact H1|].
  exact (proj1 (initial_edits_drop_time_of_day afternoon_df H1)).
Defined.

Lemma projects_nil df :
  projects df = [] <-> forall r, In r (records df) -> project_name r = None.
Proof.
  unfold projects. split.
  - intros H r Hr. destruct (project_name r) as [p|] eqn:E; [|done].
    assert (p ∈ remove_dups (omap project_name (records df))) as Hp.
    { apply elem_of_remove_dups, list_elem_of_omap. exists r.
      split; [by apply list_elem_of_In|done]. }
    rewrite H in Hp. by apply not_elem_of_nil in Hp.
  - intros H. destruct (remove_dups _) as [|p l] eqn:E; [done|].
    assert (p ∈ remove_dups (omap project_name (records df))) as Hp
      by (rewrite E; left).
    apply elem_of_remove_dups, list_elem_of_omap in Hp as (r & Hr & Hp).
    apply list_elem_of_In in Hr. rewrite (H r Hr) in Hp. done.
Qed.

(** On a first visit the dashboard computes no table when the table has no
    ["section"] column, whatever else it holds. *)
Lemma first_visit_needs_section df project_rows st :
  forecast_edit_table st = None -> "section" ∉ columns df ->
  dashboard_forecast_table df project_rows st = None.
Proof.
  intros Hst Hsec. unfold dashboard_forecast_table. rewrite Hst.
  destruct (negb (has_column df "project name")); [done|].
  destruct (bool_decide (projects df = [])); [done|].
  destruct (length project_rows =? 0)%nat; [done|].
  destruct (negb (forallb _ forecast_required_cols)); [done|].
  replace (forallb (has_column (project_df df project_rows)) edit_required_cols)
    with false; [done|].
  symmetry. apply not_true_iff_false. intros H.
  apply Hsec. apply (has_column_true (project_df df project_rows)).
  eapply forallb_forall in H; [exact H|]. right. by left.
Qed.

(** X22. A run of the forecast dashboard that passes its checks (the table
    has the project column and a project, the project has rows, the four
    required columns are there, and so is ["section"] when the session holds
    no edit table yet) never ends in the "no rows" fallback once its updated
    table yields a group: when the stored rows have the required columns and
    the edit table holds valid calendar dates and has as many rows as the
    stored table, the run computes a forecast with rows and no error. *)
Theorem forecast_of_edits_has_rows (df : DataFrame) (project_rows : list Task)
    (st : Session) (current : DataFrame) (edited : list EditRow) :
  current = session_data (project_df df project_rows) st ->
  edited = session_edit_table (project_df df project_rows) st ->
  "project name" ∈ columns df ->
  (exists r, In r (records df) /\ project_name r <> None) ->
  project_rows <> [] ->
  (forall col, In col forecast_required_cols -> col ∈ columns df) ->
  (forecast_edit_table st = None -> "section" ∈ columns df) ->
  missing_cols current = [] ->
  length (records current) = length edited ->
  (forall e, In e edited -> wf_edit e) ->
  groupby (List.filter valid_mask (records (updated_data current edited)))
          (grouping_cols current) <> [] ->
  exists row rows, dashboard_forecast_table df project_rows st = Some (row :: rows, None).
Proof.
  intros Ec Ee Hpn (r0 & Hr0 & Hp0) Hne Hreq Hsec Hm Hlen Hwf Hg.
  pose proof (updated_data_columns current edited Hm) as Hcol.
  assert (missing_cols (updated_data current edited) = []) as Hm'.
  { unfold missing_cols, has_column in *. by rewrite Hcol. }
  assert (grouping_cols (updated_data current edited) = grouping_cols current) as Hgc.
  { unfold grouping_cols, has_column. by rewrite Hcol. }
  assert (forall r, In r (records (updated_data current edited)) ->
                    wf_task r /\ date_only r) as Hrec.
  { unfold updated_data. rewrite (proj2 (Nat.eqb_eq _ _) Hlen). simpl.
    intros r Hr. apply list_elem_of_In, elem_of_lookup_zip_with in Hr
      as (i & r1 & e & -> & _ & He).
    split; [|apply update_row_date_only].
    apply update_row_wf, Hwf. apply list_elem_of_In. by eapply list_elem_of_lookup_2. }
  assert ((length edited =? 0)%nat = false) as Hed.
  { apply Nat.eqb_neq. intros H0. apply nil_length_inv in H0. apply Hg.
    unfold updated_data. rewrite (proj2 (Nat.eqb_eq _ _) Hlen). simpl. rewrite H0.
    by destruct (records current). }
  assert ((length project_rows =? 0)%nat = false) as Hpr.
  { apply Nat.eqb_neq. intros H0. by apply nil_length_inv in H0. }
  rewrite <- Hgc in Hg.
  destruct (date_table_has_rows (updated_data current edited) "default" Hm' Hrec Hg)
    as (row & rows & Hres).
  exists (row ++ [("forecast budget", default CNaN (row_get "approved budget" row))]),
    (assign_forecast_column rows).
  unfold dashboard_forecast_table. cbv zeta. rewrite <- Ec, <- Ee.
  rewrite (proj2 (has_column_true df "project name") Hpn). cbn [negb].
  rewrite bool_decide_eq_false_2.
  2:{ rewrite projects_nil. intros H. by apply Hp0, H. }
  rewrite Hpr, Hed.
  replace (forallb (has_column (project_df df project_rows)) forecast_required_cols)
    with true.
  2:{ symmetry. apply forallb_forall. intros c Hc. apply has_column_true. by apply Hreq. }
  cbn [negb].
  replace (match forecast_edit_table st with
           | Some _ => false
           | None => negb (forallb (has_column (project_df df project_rows))
                             edit_required_cols)
           end) with false.
  2:{ symmetry. destruct (forecast_edit_table st) as [t|] eqn:Et; [done|].
      apply negb_false_iff, forallb_forall. intros c Hc. apply has_column_true.
      cbn [columns project_df].
      destruct Hc as [<-|[<-|[<-|[<-|[<-|[]]]]]];
        [apply Hreq; cbn; tauto | by apply Hsec | apply Hreq; cbn; tauto ..]. }
  rewrite calculate_forecast_budget_eq.
  change (default df (Some (updated_data current edited)))
    with (updated_data current edited).
  rewrite Hres. done.
Qed.

Lemma forecast_of_edits_has_rows_witness :
  "project name" ∈ columns afternoon_df
  /\ (exists r, In r (records afternoon_df) /\ project_name r <> None)
  /\ [afternoon_task] <> []
  /\ (forall col, In col forecast_required_cols -> col ∈ columns afternoon_df)
  /\ (forecast_edit_table first_visit = None -> "section" ∈ columns afternoon_df)
  /\ missing_cols afternoon_df = []
  /\ length (records afternoon_df) = length (initial_edit_table [afternoon_task])
  /\ (forall e, In e (initial_edit_table [afternoon_task]) -> wf_edit e)
  /\ groupby (List.filter valid_mask
                (records (updated_data afternoon_df (initial_edit_table [afternoon_task]))))
             (grouping_cols afternoon_df) <> []
  /\ exists row rows,
       dashboard_forecast_table afternoon_df [afternoon_task] first_visit
       = Some (row :: rows, None).
Proof.
  assert ("project name" ∈ columns afternoon_df) as H1 by compute_done.
  assert (exists r, In r (records afternoon_df) /\ project_name r <> None) as H2.
  { exists afternoon_task. split; [by left|done]. }
  assert ([afternoon_task] <> []) as H3 by done.
  assert (forall col, In col forecast_required_cols -> col ∈ columns afternoon_df) as H4.
  { intros c [<-|[<-|[<-|[<-|[]]]]]; compute_done. }
  assert (forecast_edit_table first_visit = None -> "section" ∈ columns afternoon_df) as H5.
  { intros _. compute_done. }
  assert (missing_cols afternoon_df = []) as H6 by reflexivity.
  assert (length (records afternoon_df) = length (initial_edit_table [afternoon_task])) as H7
    by reflexivity.
  assert (forall e, In e (initial_edit_table [afternoon_task]) -> wf_edit e) as H8.
  { intros e [<-|[]]. split; intros d [= <-]; vm_compute; intuition discriminate. }
  assert (groupby (List.filter valid_mask
                     (records (updated_data afternoon_df
                                 (initial_edit_table [afternoon_task]))))
                  (grouping_cols afternoon_df) <> []) as H9 by (vm_compute; discriminate).
  split; [exact H1|]. split; [exact H2|]. split; [exact H3|]. split; [exact H4|].
  split; [exact H5|]. split; [exact H6|]. split; [exact H7|]. split; [exact H8|].
  split; [exact H9|].
  exact (forecast_of_edits_has_rows afternoon_df [afternoon_task] first_visit
           afternoon_df (initial_edit_table [afternoon_task])
           eq_refl eq_refl H1 H2 H3 H4 H5 H6 H7 H8 H9).
Defined.

(** On the table of [afternoon_task] the approved-budget dashboard gets the
    "no rows" error, while a first visit of the forecast dashboard, whose
    edit table holds calendar dates, gets the single January row with the
    whole budget. *)
Example dashboards_differ_on_afternoon_task :
  calculate_approved_budget afternoon_df "default" = ([], Some MSG_NO_ROWS)
  /\ exists rows,
       dashboard_forecast_table afternoon_df [afternoon_task] first_visit
       = Some (rows, None)
       /\ map row_month rows = [Some (2025, 1)]
       /\ column_sum "forecast budget" rows = amount 100000.
Proof.
  split; [reflexivity|]. eexists. split; [reflexivity|].
  split; [reflexivity|]. by apply Qc_is_canon.
Qed.

(** ** The monthly tables of the two dashboards *)

Lemma omap_map {A B C} (f : B -> option C) (g : A -> B) (l : list A) :
  omap f (map g l) = omap (fun a => f (g a)) l.
Proof.
  induction l as [|a l IH]; [done|]. cbn [map]. by rewrite !omap_cons, IH.
Qed.

Lemma filter_map_comm {A B} (f : B -> bool) (g : A -> B) (l : list A) :
  List.filter f (map g l) = map g (List.filter (fun a => f (g a)) l).
Proof.
  induction l as [|a l IH]; [done|]. cbn [map List.filter].
  destruct (f (g a)); cbn [map]; by rewrite IH.
Qed.

(** The monthly table of a dashboard depends on the rows only through their
    AllocationRows. *)
Lemma monthly_summary_allocation_rows label rows :
  monthly_summary label rows = monthly_summary_of_rows (allocation_row label <$> rows).
Proof.
  unfold monthly_summary, monthly_summary_of_rows, group_by_month.
  change (allocation_row label <$> rows) with (map (allocation_row label) rows).
  rewrite omap_map. f_equal.
  apply map_ext. intros p. unfold column_sum, rows_of_month.
  rewrite !filter_map_comm, !omap_map. done.
Qed.

(** X23. For the same active table the monthly table of the forecast
    dashboard (sums of "forecast budget") is the monthly table of the
    approved-budget dashboard (sums of "approved budget"). *)
Theorem forecast_monthly_table_is_approved (df : DataFrame)
    (edited_data : option DataFrame) (rule_name : string) :
  monthly_summary "forecast budget" (calculate_forecast_budget df edited_data rule_name).1
  = monthly_summary "approved budget"
      (calculate_approved_budget (default df edited_data) rule_name).1.
Proof.
  rewrite !monthly_summary_allocation_rows. f_equal.
  rewrite calculate_forecast_budget_eq.
  pose proof (engine_rows_cols (default df edited_data) rule_name) as Hrows.
  destruct (engine_outcome (default df edited_data) rule_name)
    as [(e & -> & He)|(row & rows & Hr)]; [done|].
  rewrite Hr in *. cbn [fst snd] in *.
  by apply (allocation_rows_forecast (default df edited_data)).
Qed.
